(** * A shallow embedding of [server.js]: the user-directory API

    The file follows the layout of the source.  First the JavaScript
    built-ins the handlers rely on ([String.prototype.toLowerCase],
    [trim], [includes], [parseInt], [Array.prototype.slice], regular
    expression matching, [ToString] on parsed JSON), then the module
    state ([users], [nextId]) and a small state-and-exception monad in
    which the five [/api/users] handlers are written statement by
    statement, then the application that Express makes of them.  The
    properties come next: facts about the built-ins, the outcome of each
    handler, the invariant of the store, and the statements C1 to C10 of
    the specification; module [Examples] closes the file with concrete
    requests.

    Modelling conventions.
    - A JavaScript string is a [string] whose characters are the code
      points 0..255 (Latin-1); [length] counts characters.
    - An integral JavaScript number is a [Z]; [NaN] is [None].  Numbers
      are doubles: the model is exact as long as the integers read by
      [parseInt] and computed from them stay within 2^53 in magnitude
      ([exactInteger]), which the statements about them assume.
    - An ISO-8601 timestamp is the [Z] it denotes in milliseconds:
      [toISOString] is injective and order-preserving on four-digit years.
    - [new Date()] reads an environment clock: the i-th read of the
      process returns [clock i].
    - [req.query] values are strings or absent, [req.params.id] is a
      string, [req.body] is an object whose fields are parsed JSON. *)

From Stdlib Require Import ZArith Lia Bool Ascii.
From stdpp Require Import base list strings pretty.

Open Scope Z_scope.

(** ** Strings *)

Module JsString.

Definition code (c : ascii) : Z := Z.of_N (N_of_ascii c).

Definition between (lo hi n : Z) : bool := (lo <=? n) && (n <=? hi).

(** [\s] of a regular expression and the characters [trim] strips:
    TAB, LF, VT, FF, CR, SP and NBSP are the ones below 256. *)
Definition isWhiteSpace (c : ascii) : bool :=
  let n := code c in between 9 13 n || (n =? 32) || (n =? 160).

(** Unicode simple lowercase mapping below 256: A-Z, and the
    Latin-1 capitals 0xC0..0xDE without the multiplication sign. *)
Definition isUpper (c : ascii) : bool :=
  let n := code c in
  between 65 90 n || (between 192 222 n && negb (n =? 215)).

Definition toLowerCaseChar (c : ascii) : ascii :=
  if isUpper c then ascii_of_N (Z.to_N (code c + 32)) else c.

Fixpoint toLowerCase (s : string) : string :=
  match s with
  | EmptyString => EmptyString
  | String c s' => String (toLowerCaseChar c) (toLowerCase s')
  end.

Fixpoint trimStart (s : string) : string :=
  match s with
  | EmptyString => EmptyString
  | String c s' => if isWhiteSpace c then trimStart s' else s
  end.

Fixpoint trimEnd (s : string) : string :=
  match s with
  | EmptyString => EmptyString
  | String c s' =>
      match trimEnd s' with
      | EmptyString => if isWhiteSpace c then EmptyString else String c EmptyString
      | t => String c t
      end
  end.

Definition trim (s : string) : string := trimEnd (trimStart s).

Definition length (s : string) : Z := Z.of_nat (String.length s).

Fixpoint startsWith (s p : string) : bool :=
  match p, s with
  | EmptyString, _ => true
  | String _ _, EmptyString => false
  | String a p', String b s' => if ascii_dec a b then startsWith s' p' else false
  end.

(** [s.includes(sub)] *)
Fixpoint includes (s sub : string) : bool :=
  startsWith s sub ||
  match s with
  | EmptyString => false
  | String _ s' => includes s' sub
  end.

Definition eqb (a b : string) : bool := bool_decide (a = b).

(** Every character of [s] satisfies [p]. *)
Fixpoint allChars (p : ascii -> bool) (s : string) : bool :=
  match s with
  | EmptyString => true
  | String c s' => p c && allChars p s'
  end.

Definition noWhiteSpace (s : string) : bool :=
  allChars (λ c, negb (isWhiteSpace c)) s.

Definition isDigit (c : ascii) : bool := between 48 57 (code c).

End JsString.

(** ** [parseInt] with the radix argument omitted *)

Module JsNumber.

Import JsString.

(** The value of a character as a digit: 0-9, then a-z and A-Z for 10..35. *)
Definition digitValue (c : ascii) : option Z :=
  let n := code c in
  if between 48 57 n then Some (n - 48)
  else if between 97 122 n then Some (n - 87)
  else if between 65 90 n then Some (n - 55)
  else None.

(** The longest prefix of radix-[R] digits, read as a number; [acc] is
    [None] until a first digit has been seen. *)
Fixpoint parseDigits (R : Z) (s : string) (acc : option Z) : option Z :=
  match s with
  | EmptyString => acc
  | String c s' =>
      match digitValue c with
      | Some d =>
          if d <? R then parseDigits R s' (Some (default 0 acc * R + d))
          else acc
      | None => acc
      end
  end.

(** [parseInt(s)]: skip leading white space, take a sign, take a
    [0x]/[0X] prefix as radix 16 and radix 10 otherwise, read the longest
    digit prefix; [NaN] when that prefix is empty. *)
Definition parseInt (input : string) : option Z :=
  let inputS := trimStart input in
  let '(sign, signed) :=
    match inputS with
    | String "-"%char r => (-1, r)
    | String "+"%char r => (1, r)
    | _ => (1, inputS)
    end in
  let '(R, digits) :=
    match signed with
    | String "0"%char (String "x"%char r) => (16, r)
    | String "0"%char (String "X"%char r) => (16, r)
    | _ => (10, signed)
    end in
  match parseDigits R digits None with
  | None => None
  | Some mathInt => Some (sign * mathInt)
  end.

Definition isNaN (n : option Z) : bool :=
  match n with None => true | Some _ => false end.

(** [n || d] on numbers: [NaN] and zero are falsy. *)
Definition orDefault (n : option Z) (d : Z) : Z :=
  match n with
  | None => d
  | Some v => if v =? 0 then d else v
  end.

(** [Math.ceil(a / b)] for integral [a] and non-zero [b]. *)
Definition ceilDiv (a b : Z) : Z := - ((- a) / b).

(** The integers every one of which is a double: up to [2^53] in
    magnitude, numbers and their sums and products are computed exactly. *)
Definition exactInteger (z : Z) : Prop := Z.abs z <= 2 ^ 53.

(** A base-10 integer in the sense of the specification: an optional
    sign, then one or more decimal digits, and nothing else. *)
Definition isDecimalInteger (s : string) : bool :=
  let digits :=
    match s with
    | String "-"%char r => r
    | String "+"%char r => r
    | _ => s
    end in
  negb (eqb digits "") && allChars isDigit digits.

End JsNumber.

(** ** Regular expressions

    A pattern is matched with Brzozowski derivatives.  [test r s] is the
    behaviour of [/^r$/.test(s)] for a string [s]: without the [m] flag
    the anchors pin the match to the whole string. *)

Module JsRegExp.

Import JsString.

Inductive regex : Type :=
| Void
| Eps
| Lit (c : ascii)                 (* a literal character, such as [@] or [\.] *)
| NotSpaceNor (c : ascii)         (* the class [[^\s c]] *)
| Cat (r1 r2 : regex)
| Alt (r1 r2 : regex)
| Star (r : regex).

(** [r+] *)
Definition Plus (r : regex) : regex := Cat r (Star r).

Fixpoint nullable (r : regex) : bool :=
  match r with
  | Void | Lit _ | NotSpaceNor _ => false
  | Eps | Star _ => true
  | Cat r1 r2 => nullable r1 && nullable r2
  | Alt r1 r2 => nullable r1 || nullable r2
  end.

Definition accepts (r : regex) (a : ascii) : bool :=
  match r with
  | Lit c => bool_decide (a = c)
  | NotSpaceNor c => negb (isWhiteSpace a) && negb (bool_decide (a = c))
  | _ => false
  end.

Fixpoint deriv (a : ascii) (r : regex) : regex :=
  match r with
  | Void | Eps => Void
  | Lit _ | NotSpaceNor _ => if accepts r a then Eps else Void
  | Cat r1 r2 =>
      if nullable r1 then Alt (Cat (deriv a r1) r2) (deriv a r2)
      else Cat (deriv a r1) r2
  | Alt r1 r2 => Alt (deriv a r1) (deriv a r2)
  | Star r1 => Cat (deriv a r1) (Star r1)
  end.

Fixpoint test (r : regex) (s : string) : bool :=
  match s with
  | EmptyString => nullable r
  | String a s' => test (deriv a r) s'
  end.

(** Syntactic checks used to reason about [test]: a pattern that
    matches nothing, and a pattern whose character classes all lie
    inside [p]. *)
Fixpoint dead (r : regex) : bool :=
  match r with
  | Void => true
  | Cat r1 r2 => dead r1 || dead r2
  | Alt r1 r2 => dead r1 && dead r2
  | _ => false
  end.

(** The character classes of [r] do not tell a letter from its
    lowercase form. *)
Fixpoint caseBlind (r : regex) : Prop :=
  match r with
  | Void | Eps => True
  | Lit _ | NotSpaceNor _ => ∀ a, accepts r (toLowerCaseChar a) = accepts r a
  | Cat r1 r2 | Alt r1 r2 => caseBlind r1 ∧ caseBlind r2
  | Star r1 => caseBlind r1
  end.

Fixpoint classesWithin (p : ascii -> bool) (r : regex) : Prop :=
  match r with
  | Void | Eps => True
  | Lit _ | NotSpaceNor _ => ∀ a, accepts r a = true -> p a = true
  | Cat r1 r2 | Alt r1 r2 => classesWithin p r1 ∧ classesWithin p r2
  | Star r1 => classesWithin p r1
  end.

(** What it means for a string to match a pattern, independently of
    the derivative-based [test]. *)
Inductive Matches : regex -> string -> Prop :=
| Matches_Eps : Matches Eps ""
| Matches_Lit c : Matches (Lit c) (String c "")
| Matches_Class c a :
    isWhiteSpace a = false -> a ≠ c -> Matches (NotSpaceNor c) (String a "")
| Matches_Cat r1 r2 s1 s2 :
    Matches r1 s1 -> Matches r2 s2 -> Matches (Cat r1 r2) (s1 +:+ s2)
| Matches_Alt_l r1 r2 s : Matches r1 s -> Matches (Alt r1 r2) s
| Matches_Alt_r r1 r2 s : Matches r2 s -> Matches (Alt r1 r2) s
| Matches_Star_nil r : Matches (Star r) ""
| Matches_Star_cons r a s1 s2 :
    Matches r (String a s1) -> Matches (Star r) s2 ->
    Matches (Star r) (String a s1 +:+ s2).

End JsRegExp.

(** ** Exceptions and parsed JSON *)

Inductive exn : Type :=
| TypeError (message : string).

Inductive result (A : Type) : Type :=
| Returned (a : A)
| Thrown (e : exn).
Arguments Returned {A} a.
Arguments Thrown {A} e.

Import JsString JsNumber JsRegExp.

(** ** An environment for the examples

    JSON numbers that are integers, rendered in decimal, and a clock that
    advances by one millisecond from one read to the next. *)

Module Sample.

Definition number : Type := Z.

Definition number_is_zero (n : number) : bool := n =? 0.

Definition number_to_string (n : number) : string := pretty n.

Definition clock (i : nat) : Z := 1705314600000 + Z.of_nat i.

End Sample.

Section Server.

(** JSON numbers are doubles.  The handlers observe a number in two
    ways only: its truthiness and its [ToString] rendering. *)
Variable number : Type.
Variable number_is_zero : number -> bool.
Variable number_to_string : number -> string.

(** The environment: the clock behind [new Date()], and whether
    [process.env.NODE_ENV === 'production']. *)
Variable clock : nat -> Z.
Variable production : bool.

#[local] Unset Elimination Schemes.
Inductive json : Type :=
| JNull
| JBool (b : bool)
| JNum (n : number)
| JStr (s : string)
| JArr (elements : list json)
| JObj (properties : list (string * json)).
#[local] Set Elimination Schemes.

(** [v] is truthy, that is, [!v] is false. *)
Definition truthy (v : option json) : bool :=
  match v with
  | None | Some JNull | Some (JBool false) | Some (JStr EmptyString) => false
  | Some (JNum n) => negb (number_is_zero n)
  | Some _ => true
  end.

Definition hasOwnProperty (properties : list (string * json)) (key : string) : bool :=
  bool_decide (key ∈ properties.*1).

(** [ToString(v)].  An array is joined with commas, [null] elements
    being rendered empty.  An object parsed from JSON renders as
    [[object Object]] through [Object.prototype.toString]; when it has an
    own [toString] property (never callable) no conversion method yields
    a primitive and [ToString] throws. *)
Fixpoint ToString (v : json) : result string :=
  match v with
  | JNull => Returned "null"
  | JBool b => Returned (if b then "true" else "false")
  | JNum n => Returned (number_to_string n)
  | JStr s => Returned s
  | JArr elements =>
      (fix join (l : list json) : result string :=
         match l with
         | [] => Returned ""
         | x :: rest =>
             let element := match x with JNull => Returned "" | _ => ToString x end in
             match element, rest with
             | Thrown e, _ => Thrown e
             | Returned t, [] => Returned t
             | Returned t, _ :: _ =>
                 match join rest with
                 | Returned u => Returned (t +:+ "," +:+ u)
                 | Thrown e => Thrown e
                 end
             end
         end) elements
  | JObj properties =>
      if hasOwnProperty properties "toString"
      then Thrown (TypeError "Cannot convert object to primitive value")
      else Returned "[object Object]"
  end.

(** Line 29: [/^[^\s@]+@[^\s@]+\.[^\s@]+$/] *)
Definition emailRegex : regex :=
  Cat (Plus (NotSpaceNor "@"))
    (Cat (Lit "@")
       (Cat (Plus (NotSpaceNor "@"))
          (Cat (Lit ".") (Plus (NotSpaceNor "@"))))).

(** ** Module state and the handler monad *)

Record user : Type := User {
  id : Z;
  name : string;
  email : string;
  createdAt : Z;
  updatedAt : option Z          (* [None]: the property is absent *)
}.

(** The assignments [u.name = n], [u.email = e] and [u.updatedAt = t]. *)
Definition setName (n : string) (u : user) : user :=
  User (id u) n (email u) (createdAt u) (updatedAt u).

Definition setEmail (e : string) (u : user) : user :=
  User (id u) (name u) e (createdAt u) (updatedAt u).

Definition setUpdatedAt (t : Z) (u : user) : user :=
  User (id u) (name u) (email u) (createdAt u) (Some t).

(** [users] and [nextId] are the two module variables of the source;
    [reads] counts the clock reads made so far. *)
Record world : Type := World {
  users : list user;
  nextId : Z;
  reads : nat
}.

(** A computation may change the module state and either returns or
    throws; what it changed before throwing stays changed. *)
Definition M (A : Type) : Type := world -> world * result A.

Definition ret {A} (a : A) : M A := λ w, (w, Returned a).

Definition bind {A B} (m : M A) (k : A -> M B) : M B := λ w,
  match m w with
  | (w', Returned a) => k a w'
  | (w', Thrown e) => (w', Thrown e)
  end.

Notation "'let*' x := m 'in' k" := (bind m (λ x, k))
  (at level 10, x name, m at level 100, k at level 200).
Notation "'do' m 'then' k" := (bind m (λ _, k))
  (at level 10, m at level 100, k at level 200).

Definition throw {A} (e : exn) : M A := λ w, (w, Thrown e).

Definition lift {A} (r : result A) : M A := λ w, (w, r).

Definition try_catch {A} (block : M A) (handler : exn -> M A) : M A := λ w,
  match block w with
  | (w', Thrown e) => handler e w'
  | done => done
  end.

Definition getUsers : M (list user) := λ w, (w, Returned (users w)).

Definition setUsers (l : list user) : M unit := λ w,
  (World l (nextId w) (reads w), Returned ()).

(** [new Date().toISOString()] *)
Definition newDate : M Z := λ w,
  (World (users w) (nextId w) (S (reads w)), Returned (clock (reads w))).

(** [nextId++] *)
Definition postIncrementNextId : M Z := λ w,
  (World (users w) (nextId w + 1) (reads w), Returned (nextId w)).

(** [users.find(callback)] with a callback that may throw. *)
Fixpoint findM (callback : user -> M bool) (l : list user) : M (option user) :=
  match l with
  | [] => ret None
  | u :: l' => let* found := callback u in if found then ret (Some u) else findM callback l'
  end.

(** [users[i].field = value], where [f] is the assignment to the field. *)
Definition assignAt (i : nat) (f : user -> user) : M unit := λ w,
  match users w !! i with
  | Some _ => (World (alter f i (users w)) (nextId w) (reads w), Returned ())
  | None => (w, Thrown (TypeError "Cannot set properties of undefined"))
  end.

(** [users[i]], about to be dereferenced. *)
Definition userAt (i : nat) : M user := λ w,
  match users w !! i with
  | Some u => (w, Returned u)
  | None => (w, Thrown (TypeError "Cannot read properties of undefined"))
  end.

(** [users.splice(i, 1)[0]], about to be dereferenced. *)
Definition spliceAt (i : nat) : M user := λ w,
  match users w !! i with
  | Some u => (World (delete i (users w)) (nextId w) (reads w), Returned u)
  | None => (w, Thrown (TypeError "Cannot read properties of undefined"))
  end.

(** ** Requests and responses *)

Record query : Type := Query {
  query_name : option string;
  query_email : option string;
  query_page : option string;
  query_limit : option string
}.

(** [const { name, email } = req.body]; [None] is [undefined]. *)
Record payload : Type := Payload {
  body_name : option json;
  body_email : option json
}.

Record pagination : Type := Pagination {
  currentPage : Z;
  totalPages : Z;
  totalUsers : Z;
  hasNext : bool;
  hasPrev : bool
}.

Inductive body : Type :=
| Error (error : string)
| ErrorDetails (error : string) (details_name details_email : option string)
| ErrorStack (error details : string)      (* the [stack] text is left out *)
| UserObject (u : user)
| MessageUser (message : string) (u : user)
| UsersPage (page_users : list user) (page_info : pagination)
| MessageDeleted (message : string) (deleted_id : Z) (deleted_name deleted_email : string).

Record response : Type := Response {
  status : Z;
  sent : body
}.

(** [res.status(code).json(body)]; [res.json(body)] is [json_ 200]. *)
Definition json_ (code : Z) (b : body) : M response := ret (Response code b).

(** ** Helpers of the handlers *)

(** [ToString] of a possibly [undefined] value. *)
Definition ToString_opt (v : option json) : result string :=
  match v with
  | None => Returned "undefined"
  | Some v => ToString v
  end.

(** Lines 28-31. *)
Definition isValidEmail (email : option json) : M bool :=
  let* s := lift (ToString_opt email) in ret (test emailRegex s).

(** [v.toLowerCase()] *)
Definition toLowerCase_ (v : option json) : M string :=
  match v with
  | Some (JStr s) => ret (toLowerCase s)
  | _ => throw (TypeError "toLowerCase is not a function")
  end.

(** [v.trim()] *)
Definition trim_ (v : option json) : M string :=
  match v with
  | Some (JStr s) => ret (trim s)
  | _ => throw (TypeError "trim is not a function")
  end.

(** [typeof name !== 'string' || name.trim().length < 2] *)
Definition invalidName (name : option json) : bool :=
  match name with
  | Some (JStr s) => length (trim s) <? 2
  | _ => true
  end.

(** [v !== undefined] *)
Definition defined (v : option json) : bool :=
  match v with Some _ => true | None => false end.

(** [u.id === userId] *)
Definition idIs (userId : option Z) (u : user) : Prop := Some (id u) = userId.

#[local] Instance idIs_dec userId u : Decision (idIs userId u).
Proof. unfold idIs. apply _. Defined.

(** [array.slice(start, end)] *)
Definition relativeIndex (len i : Z) : Z :=
  if i <? 0 then Z.max (len + i) 0 else Z.min i len.

Definition slice {A} (l : list A) (start end_ : Z) : list A :=
  let len := Z.of_nat (List.length l) in
  let k := relativeIndex len start in
  let final := relativeIndex len end_ in
  take (Z.to_nat (final - k)) (drop (Z.to_nat k) l).

(** [if (filter) list = list.filter(user => field(user).toLowerCase().includes(filter.toLowerCase()))] *)
Definition filterBy (field : user -> string) (param : option string)
    (l : list user) : list user :=
  match param with
  | None | Some EmptyString => l
  | Some text =>
      let textFilter := toLowerCase text in
      List.filter (λ user, includes (toLowerCase (field user)) textFilter) l
  end.

(** [parseInt(param)] of a possibly absent query parameter. *)
Definition parseIntParam (param : option string) : option Z :=
  parseInt (default "undefined" param).

(** ** The handlers

    Each handler is a [try] block and a [catch] block.  In the blocks
    [name] and [email] are the two fields taken from the body, as in the
    source; the e-mail of a stored user [u] is written [Server.email u]. *)

Definition internalServerError : M response :=
  json_ 500 (Error "Internal server error").

(** Lines 62-104: [GET /api/users]. *)
Definition get_api_users_try (q : query) : M response :=
    (let* filteredUsers := getUsers in
     let filteredUsers := filterBy name (query_name q) filteredUsers in
     let filteredUsers := filterBy email (query_email q) filteredUsers in
     let page := orDefault (parseIntParam (query_page q)) 1 in
     let limit := orDefault (parseIntParam (query_limit q)) 10 in
     let startIndex := (page - 1) * limit in
     let endIndex := startIndex + limit in
     let paginatedUsers := slice filteredUsers startIndex endIndex in
     let count := Z.of_nat (List.length filteredUsers) in
     json_ 200 (UsersPage paginatedUsers
       {| currentPage := page;
          totalPages := ceilDiv count limit;
          totalUsers := count;
          hasNext := endIndex <? count;
          hasPrev := 0 <? startIndex |})).

Definition get_api_users (q : query) : M response :=
  try_catch (get_api_users_try q) (λ error, internalServerError).

(** Lines 107-126: [GET /api/users/:id]. *)
Definition get_api_users_id_try (idParam : string) : M response :=
    (let userId := parseInt idParam in
     if isNaN userId then json_ 400 (Error "Invalid user ID format") else
     let* us := getUsers in
     match list_find (idIs userId) us with
     | None => json_ 404 (Error "User not found")
     | Some (_, user) => json_ 200 (UserObject user)
     end).

Definition get_api_users_id (idParam : string) : M response :=
  try_catch (get_api_users_id_try idParam) (λ error, internalServerError).

(** Lines 129-183: [POST /api/users]. *)
Definition post_api_users_try (b : payload) : M response :=
    (let name := body_name b in
     let email := body_email b in
     if negb (truthy name) || negb (truthy email) then
       json_ 400 (ErrorDetails "Validation failed"
         (if negb (truthy name) then Some "Name is required" else None)
         (if negb (truthy email) then Some "Email is required" else None))
     else if invalidName name then
       json_ 400 (Error "Name must be a string with at least 2 characters")
     else
     let* valid := isValidEmail email in
     if negb valid then
       json_ 400 (Error "Please provide a valid email address")
     else
     let* us := getUsers in
     let* existingUser :=
       findM (λ u, let* lowered := toLowerCase_ email in
                   ret (eqb (toLowerCase (Server.email u)) lowered)) us in
     if bool_decide (is_Some existingUser) then
       json_ 409 (Error "User with this email already exists")
     else
     let* newId := postIncrementNextId in
     let* newName := trim_ name in
     let* lowered := toLowerCase_ email in
     let* created := newDate in
     let* updated := newDate in
     let newUser := User newId newName (trim lowered) created (Some updated) in
     let* us := getUsers in
     do setUsers (us ++ [newUser]) then
     json_ 201 (MessageUser "User created successfully" newUser)).

Definition post_api_users (b : payload) : M response :=
  try_catch (post_api_users_try b) (λ error, internalServerError).

(** Lines 186-248: [PUT /api/users/:id]. *)
Definition put_api_users_id_try (idParam : string) (b : payload) : M response :=
    (let userId := parseInt idParam in
     if isNaN userId then json_ 400 (Error "Invalid user ID format") else
     let* us := getUsers in
     match list_find (idIs userId) us with
     | None => json_ 404 (Error "User not found")
     | Some (userIndex, _) =>
         let name := body_name b in
         let email := body_email b in
         if defined name && invalidName name then
           json_ 400 (Error "Name must be a string with at least 2 characters")
         else
         let* rejected :=
           (if defined email then
              let* valid := isValidEmail email in
              if negb valid then
                ret (Some (Response 400 (Error "Please provide a valid email address")))
              else
              let* existingUser :=
                findM (λ u, let* lowered := toLowerCase_ email in
                            ret (eqb (toLowerCase (Server.email u)) lowered
                                 && negb (bool_decide (idIs userId u)))) us in
              if bool_decide (is_Some existingUser) then
                ret (Some (Response 409 (Error "Another user with this email already exists")))
              else ret None
            else ret None) in
         match rejected with
         | Some early => ret early
         | None =>
             do (if defined name then
                   let* trimmed := trim_ name in
                   assignAt userIndex (setName trimmed)
                 else ret ()) then
             do (if defined email then
                   let* lowered := toLowerCase_ email in
                   assignAt userIndex (setEmail (trim lowered))
                 else ret ()) then
             let* refreshed := newDate in
             do assignAt userIndex (setUpdatedAt refreshed) then
             let* user := userAt userIndex in
             json_ 200 (MessageUser "User updated successfully" user)
         end
     end).

(** The [catch] block of this handler calls [res.status.status(500)]
    (line 246): [res.status] is a function without a [status] property,
    so the call throws. *)
Definition put_api_users_id (idParam : string) (b : payload) : M response :=
  try_catch (put_api_users_id_try idParam b)
    (λ error, throw (TypeError "res.status.status is not a function")).

(** Lines 251-280: [DELETE /api/users/:id]. *)
Definition delete_api_users_id_try (idParam : string) : M response :=
    (let userId := parseInt idParam in
     if isNaN userId then json_ 400 (Error "Invalid user ID format") else
     let* us := getUsers in
     match list_find (idIs userId) us with
     | None => json_ 404 (Error "User not found")
     | Some (userIndex, _) =>
         let* deletedUser := spliceAt userIndex in
         json_ 200 (MessageDeleted "User deleted successfully"
           (id deletedUser) (name deletedUser) (email deletedUser))
     end).

Definition delete_api_users_id (idParam : string) : M response :=
  try_catch (delete_api_users_id_try idParam) (λ error, internalServerError).

(** Lines 283-290: [GET /api/stats], which has no [try] block.  The
    argument is what [Math.floor(process.uptime())] evaluates to. *)
Record statistics : Type := Statistics {
  stats_totalUsers : Z;
  stats_apiVersion : string;
  stats_uptime : Z;
  stats_timestamp : Z
}.

Definition get_api_stats (uptime : Z) : M statistics :=
  let* us := getUsers in
  let* now := newDate in
  ret {| stats_totalUsers := Z.of_nat (List.length us);
         stats_apiVersion := "1.0.0";
         stats_uptime := uptime;
         stats_timestamp := now |}.

(** ** The application *)

Inductive request : Type :=
| GET_users (q : query)
| GET_user (idParam : string)
| POST_users (b : payload)
| PUT_user (idParam : string) (b : payload)
| DELETE_user (idParam : string).

Definition route (r : request) : M response :=
  match r with
  | GET_users q => get_api_users q
  | GET_user i => get_api_users_id i
  | POST_users b => post_api_users b
  | PUT_user i b => put_api_users_id i b
  | DELETE_user i => delete_api_users_id i
  end.

(** Lines 316-329: the error-handling middleware, which Express runs on
    what a handler throws. *)
Definition errorMiddleware (err : exn) : response :=
  let 'TypeError message := err in
  if production then Response 500 (Error "Internal server error")
  else Response 500 (ErrorStack "Internal server error" message).

(** One request: the logging middleware of lines 13-16 reads the clock,
    then the route runs. *)
Definition app (r : request) (w : world) : world * response :=
  match (do newDate then route r) w with
  | (w', Returned sent) => (w', sent)
  | (w', Thrown err) => (w', errorMiddleware err)
  end.

(** Lines 19-25: the state when the module has been loaded. *)
Definition initial : world :=
  {| users :=
       [ User 1 "John Doe" "john@example.com" (clock 0) None;
         User 2 "Jane Smith" "jane@example.com" (clock 1) None;
         User 3 "Bob Johnson" "bob@example.com" (clock 2) None ];
     nextId := 4;
     reads := 3 |}.

(** The states the process can get to from [w0]: a request is served,
    or some other part of the process (the welcome, health and statistics
    routes) reads the clock. *)
Inductive reaches (w0 : world) : world -> Prop :=
| reaches_here : reaches w0 w0
| reaches_app r w : reaches w0 w -> reaches w0 (app r w).1
| reaches_read w : reaches w0 w -> reaches w0 (newDate w).1.

Definition reachable : world -> Prop := reaches initial.

(** ** Vocabulary of the statements *)

(** The record built by a successful [POST] in state [w]. *)
Definition createdUser (w : world) (n e : string) : user :=
  User (nextId w) (trim n) (trim (toLowerCase e))
       (clock (reads w)) (Some (clock (S (reads w)))).

(** [u.email.toLowerCase() === e.toLowerCase()] *)
Definition sameEmail (e : string) (u : user) : bool :=
  eqb (toLowerCase (email u)) (toLowerCase e).

(** What a successful [PUT] with payload [b] makes of the stored record. *)
Definition newName (b : payload) : option string :=
  match body_name b with Some (JStr n) => Some (trim n) | _ => None end.

Definition newEmail (b : payload) : option string :=
  match body_email b with Some (JStr e) => Some (trim (toLowerCase e)) | _ => None end.

Definition updatedUser (b : payload) (t : Z) (u : user) : user :=
  User (id u) (default (name u) (newName b)) (default (email u) (newEmail b))
       (createdAt u) (Some t).

(** The name of [b] is absent or acceptable. *)
Definition nameAccepted (b : payload) : Prop :=
  body_name b = None ∨ ∃ n, body_name b = Some (JStr n) ∧ 2 <= length (trim n).

(** The e-mail of [b] is absent, or well formed and held by no user with
    another id. *)
Definition emailAccepted (userId : option Z) (b : payload) (us : list user) : Prop :=
  body_email b = None ∨
  ∃ e, body_email b = Some (JStr e) ∧ test emailRegex e = true ∧
       List.find (λ u, sameEmail e u && negb (bool_decide (idIs userId u))) us = None.

(** The key under which e-mail addresses are compared. *)
Definition lowered (u : user) : string := toLowerCase (email u).

(** The invariant of the store: ids are distinct and were all issued by
    the counter, no two users hold the same address up to case, and
    every stored address is well formed. *)
Record consistent (w : world) : Prop := Consistent {
  ids_distinct : NoDup (id <$> users w);
  ids_issued : Forall (λ i, i < nextId w) (id <$> users w);
  emails_distinct : NoDup (lowered <$> users w);
  emails_valid : Forall (λ u, test emailRegex (email u) = true) (users w)
}.

(** A field that is present in the body but falsy: the empty string,
    [null], a zero number or [false]. *)
Definition presentButFalsy (v : option json) : Prop :=
  v = Some (JStr "") ∨ v = Some JNull ∨ v = Some (JBool false) ∨
  ∃ n, v = Some (JNum n) ∧ number_is_zero n = true.

(** The same body with its falsy fields left out. *)
Definition withoutFalsy (b : payload) : payload :=
  Payload (if truthy (body_name b) then body_name b else None)
          (if truthy (body_email b) then body_email b else None).

Definition validationFailed (b : payload) : response :=
  Response 400 (ErrorDetails "Validation failed"
    (if negb (truthy (body_name b)) then Some "Name is required" else None)
    (if negb (truthy (body_email b)) then Some "Email is required" else None)).

Definition nameTooShort : response :=
  Response 400 (Error "Name must be a string with at least 2 characters").

(** The page, the limit and the filtered sequence of a list request. *)
Definition pageOf (q : query) : Z := orDefault (parseIntParam (query_page q)) 1.

Definition limitOf (q : query) : Z := orDefault (parseIntParam (query_limit q)) 10.

Definition filteredOf (q : query) (us : list user) : list user :=
  filterBy email (query_email q) (filterBy name (query_name q) us).

Definition invalidId : response := Response 400 (Error "Invalid user ID format").

Definition duplicateOnCreate : response :=
  Response 409 (Error "User with this email already exists").

Definition duplicateOnUpdate : response :=
  Response 409 (Error "Another user with this email already exists").

(** Where the timestamps of a record come from: [createdAt] is a clock
    read of the past, and [updatedAt], when present, a later one. *)
Definition timed (w : world) (u : user) : Prop :=
  ∃ i, (i < reads w)%nat ∧ createdAt u = clock i ∧
       match updatedAt u with
       | None => True
       | Some t => ∃ j, (i <= j < reads w)%nat ∧ t = clock j
       end.

(** A character of [[^\s@]], and a non-empty string of such characters. *)
Definition addressChar (c : ascii) : bool :=
  negb (isWhiteSpace c) && negb (bool_decide (c = "@"%char)).

Definition addressPart (s : string) : bool :=
  negb (eqb s "") && allChars addressChar s.



(** The same query for another page, and the users a list request
    answers with. *)
Definition withPage (q : query) (page : Z) : query :=
  Query (query_name q) (query_email q) (Some (pretty page)) (query_limit q).

Definition listed (q : query) (w : world) : list user :=
  match get_api_users q w with
  | (_, Returned (Response _ (UsersPage paginated _))) => paginated
  | _ => []
  end.

Definition invalidEmail : response :=
  Response 400 (Error "Please provide a valid email address").

Definition notFound : response := Response 404 (Error "User not found").

Definition internalError : response := Response 500 (Error "Internal server error").

(** The ways a [POST] ends, in the order of the handler's checks. *)
Inductive post_case (b : payload) (w : world) : world * result response -> Prop :=
| post_field_missing :
    truthy (body_name b) = false ∨ truthy (body_email b) = false ->
    post_case b w (w, Returned (validationFailed b))
| post_name_invalid :
    truthy (body_name b) = true -> truthy (body_email b) = true ->
    invalidName (body_name b) = true ->
    post_case b w (w, Returned nameTooShort)
| post_email_invalid text :
    truthy (body_name b) = true -> truthy (body_email b) = true ->
    invalidName (body_name b) = false ->
    ToString_opt (body_email b) = Returned text -> test emailRegex text = false ->
    post_case b w (w, Returned invalidEmail)
| post_email_taken n e other :
    b = Payload (Some (JStr n)) (Some (JStr e)) ->
    2 <= length (trim n) -> test emailRegex e = true ->
    List.find (sameEmail e) (users w) = Some other ->
    post_case b w (w, Returned duplicateOnCreate)
| post_email_no_string :
    truthy (body_name b) = true -> truthy (body_email b) = true ->
    invalidName (body_name b) = false ->
    (∀ e, body_email b ≠ Some (JStr e)) ->
    (∃ err, ToString_opt (body_email b) = Thrown err) ∨
    (∃ text, ToString_opt (body_email b) = Returned text ∧
             test emailRegex text = true ∧ users w ≠ []) ->
    post_case b w (w, Returned internalError)
| post_email_no_string_empty_store text :
    truthy (body_name b) = true -> truthy (body_email b) = true ->
    invalidName (body_name b) = false ->
    (∀ e, body_email b ≠ Some (JStr e)) ->
    ToString_opt (body_email b) = Returned text -> test emailRegex text = true ->
    users w = [] ->
    post_case b w (World (users w) (nextId w + 1) (reads w), Returned internalError)
| post_created n e :
    b = Payload (Some (JStr n)) (Some (JStr e)) ->
    2 <= length (trim n) -> test emailRegex e = true ->
    List.find (sameEmail e) (users w) = None ->
    post_case b w
      (World (users w ++ [createdUser w n e]) (nextId w + 1) (S (S (reads w))),
       Returned (Response 201 (MessageUser "User created successfully" (createdUser w n e)))).

(** The ways a [PUT] ends, in the order of the handler's checks. *)
Inductive put_case (idParam : string) (b : payload) (w : world) :
    world * result response -> Prop :=
| put_id_invalid :
    parseInt idParam = None ->
    put_case idParam b w (w, Returned invalidId)
| put_id_unknown :
    parseInt idParam ≠ None ->
    list_find (idIs (parseInt idParam)) (users w) = None ->
    put_case idParam b w (w, Returned notFound)
| put_name_invalid i target :
    list_find (idIs (parseInt idParam)) (users w) = Some (i, target) ->
    defined (body_name b) = true -> invalidName (body_name b) = true ->
    put_case idParam b w (w, Returned nameTooShort)
| put_email_invalid i target v text :
    list_find (idIs (parseInt idParam)) (users w) = Some (i, target) ->
    nameAccepted b -> body_email b = Some v ->
    ToString v = Returned text -> test emailRegex text = false ->
    put_case idParam b w (w, Returned invalidEmail)
| put_email_taken i target e other :
    list_find (idIs (parseInt idParam)) (users w) = Some (i, target) ->
    nameAccepted b -> body_email b = Some (JStr e) -> test emailRegex e = true ->
    List.find (λ u, sameEmail e u && negb (bool_decide (idIs (parseInt idParam) u)))
      (users w) = Some other ->
    put_case idParam b w (w, Returned duplicateOnUpdate)
| put_email_no_string i target v :
    list_find (idIs (parseInt idParam)) (users w) = Some (i, target) ->
    nameAccepted b -> body_email b = Some v -> (∀ e, v ≠ JStr e) ->
    (∃ err, ToString v = Thrown err) ∨
    (∃ text, ToString v = Returned text ∧ test emailRegex text = true) ->
    put_case idParam b w
      (w, Thrown (TypeError "res.status.status is not a function"))
| put_updated i target :
    list_find (idIs (parseInt idParam)) (users w) = Some (i, target) ->
    nameAccepted b -> emailAccepted (parseInt idParam) b (users w) ->
    put_case idParam b w
      (World (alter (updatedUser b (clock (reads w))) i (users w)) (nextId w) (S (reads w)),
       Returned (Response 200 (MessageUser "User updated successfully"
                                 (updatedUser b (clock (reads w)) target)))).

(** What the handlers let into the store: a positive id, a trimmed name
    of two characters or more, and a well-formed address in lower case. *)
Record wellStored (u : user) : Prop := WellStored {
  id_positive : 1 <= id u;
  name_trimmed : trim (name u) = name u;
  name_long : 2 <= length (name u);
  email_lowered : toLowerCase (email u) = email u;
  email_valid : test emailRegex (email u) = true
}.

Definition ascending (l : list Z) : Prop :=
  ∀ i j x y, l !! i = Some x -> l !! j = Some y -> (i < j)%nat -> x < y.

(** By how much an answered request changes the number of users. *)
Definition countChange (r : request) (answer : response) : Z :=
  match r, status answer with
  | POST_users _, 201 => 1
  | DELETE_user _, 200 => -1
  | _, _ => 0
  end.

(** * Properties *)

(** ** Strings and the e-mail pattern *)

Lemma toLowerCaseChar_idemp c :
  toLowerCaseChar (toLowerCaseChar c) = toLowerCaseChar c.
Proof. destruct c as [[] [] [] [] [] [] [] []]; reflexivity. Qed.

Lemma toLowerCase_idemp s : toLowerCase (toLowerCase s) = toLowerCase s.
Proof.
  induction s as [|c s IH]; simpl; [reflexivity|].
  rewrite toLowerCaseChar_idemp, IH. reflexivity.
Qed.

Lemma toLowerCaseChar_space c :
  isWhiteSpace (toLowerCaseChar c) = isWhiteSpace c.
Proof. destruct c as [[] [] [] [] [] [] [] []]; reflexivity. Qed.

Lemma toLowerCase_noWhiteSpace s :
  noWhiteSpace (toLowerCase s) = noWhiteSpace s.
Proof.
  unfold noWhiteSpace. induction s as [|c s IH]; simpl; [reflexivity|].
  rewrite toLowerCaseChar_space, IH. reflexivity.
Qed.

Lemma trimStart_noWhiteSpace s : noWhiteSpace s = true -> trimStart s = s.
Proof.
  destruct s as [|c s]; simpl; [reflexivity|].
  unfold noWhiteSpace; simpl. destruct (isWhiteSpace c); [discriminate|reflexivity].
Qed.

Lemma trimEnd_noWhiteSpace s : noWhiteSpace s = true -> trimEnd s = s.
Proof.
  unfold noWhiteSpace. induction s as [|c s IH]; simpl; [reflexivity|].
  intros [Hc Hs]%andb_true_iff. rewrite (IH Hs).
  destruct s; [|reflexivity].
  destruct (isWhiteSpace c); [discriminate|reflexivity].
Qed.

Lemma trim_noWhiteSpace s : noWhiteSpace s = true -> trim s = s.
Proof.
  intros H. unfold trim. rewrite (trimStart_noWhiteSpace _ H).
  apply trimEnd_noWhiteSpace, H.
Qed.

Lemma dead_not_nullable r : dead r = true -> nullable r = false.
Proof.
  induction r; simpl; try discriminate; try reflexivity.
  - intros [H|H]%orb_true_iff; [rewrite (IHr1 H)|rewrite (IHr2 H)];
      [reflexivity|apply andb_false_r].
  - intros [H1 H2]%andb_true_iff. rewrite (IHr1 H1), (IHr2 H2). reflexivity.
Qed.

Lemma dead_deriv a r : dead r = true -> dead (deriv a r) = true.
Proof.
  induction r; simpl; try discriminate; try reflexivity.
  - intros H. destruct (nullable r1) eqn:N.
    + apply orb_true_iff in H as [H|H].
      * rewrite (dead_not_nullable _ H) in N. discriminate.
      * simpl. rewrite (IHr2 H). rewrite H. rewrite orb_true_r. reflexivity.
    + simpl. apply orb_true_iff in H as [H|H]; [rewrite (IHr1 H)|rewrite H];
        [reflexivity|apply orb_true_r].
  - intros [H1 H2]%andb_true_iff. rewrite (IHr1 H1), (IHr2 H2). reflexivity.
Qed.

Lemma dead_test r s : dead r = true -> test r s = false.
Proof.
  revert r. induction s as [|a s IH]; intros r H; simpl.
  - apply dead_not_nullable, H.
  - apply IH, dead_deriv, H.
Qed.

Lemma classesWithin_deriv p a r :
  classesWithin p r -> classesWithin p (deriv a r).
Proof.
  induction r; simpl; try tauto.
  - intros _. destruct (bool_decide _); exact I.
  - intros _. destruct (_ && _); exact I.
  - intros [H1 H2]. destruct (nullable r1); simpl; tauto.
Qed.

Lemma outside_deriv_dead p a r :
  classesWithin p r -> p a = false -> dead (deriv a r) = true.
Proof.
  intros Hr Ha. induction r; simpl in *; try reflexivity.
  - destruct (bool_decide (a = c)) eqn:E; [|reflexivity].
    rewrite (Hr a E) in Ha. discriminate.
  - destruct (negb (isWhiteSpace a) && negb (bool_decide (a = c))) eqn:E; [|reflexivity].
    rewrite (Hr a E) in Ha. discriminate.
  - destruct Hr as [H1 H2]. destruct (nullable r1); simpl;
      rewrite (IHr1 H1); [rewrite (IHr2 H2)|]; reflexivity.
  - destruct Hr as [H1 H2]. rewrite (IHr1 H1), (IHr2 H2). reflexivity.
  - rewrite (IHr Hr). reflexivity.
Qed.

(** A string matched by a pattern consists of characters of its classes. *)
Lemma test_allChars p r s :
  classesWithin p r -> test r s = true -> allChars p s = true.
Proof.
  revert r. induction s as [|a s IH]; intros r Hr Hs; simpl in *; [reflexivity|].
  destruct (p a) eqn:Ha; simpl.
  - apply (IH (deriv a r)); [apply classesWithin_deriv, Hr|exact Hs].
  - rewrite (dead_test _ _ (outside_deriv_dead p a r Hr Ha)) in Hs. discriminate.
Qed.

Lemma emailRegex_classes :
  classesWithin (λ c, negb (isWhiteSpace c)) emailRegex.
Proof.
  unfold emailRegex, Plus; simpl.
  repeat split; intros a H;
    try (apply andb_true_iff in H as [H _]; exact H);
    apply bool_decide_eq_true in H; subst a; reflexivity.
Qed.

(** A well-formed address has no white space, so trimming leaves it alone. *)
Lemma valid_email_noWhiteSpace e :
  test emailRegex e = true -> noWhiteSpace e = true.
Proof. apply test_allChars, emailRegex_classes. Qed.

Lemma valid_email_stored e :
  test emailRegex e = true -> trim (toLowerCase e) = toLowerCase e.
Proof.
  intros H. apply trim_noWhiteSpace.
  rewrite toLowerCase_noWhiteSpace. apply valid_email_noWhiteSpace, H.
Qed.


Lemma caseBlind_deriv a r :
  caseBlind r -> deriv (toLowerCaseChar a) r = deriv a r ∧ caseBlind (deriv a r).
Proof.
  induction r; simpl; try (intros _; split; [reflexivity|exact I]).
  - intros H. pose proof (H a) as Ha. simpl in Ha. rewrite Ha.
    split; [reflexivity|]. destruct (bool_decide (a = c)); exact I.
  - intros H. pose proof (H a) as Ha. simpl in Ha. rewrite Ha.
    split; [reflexivity|].
    destruct (negb (isWhiteSpace a) && negb (bool_decide (a = c))); exact I.
  - intros [H1 H2]. destruct (IHr1 H1) as [-> C1], (IHr2 H2) as [-> C2].
    split; [reflexivity|]. destruct (nullable r1); simpl; tauto.
  - intros [H1 H2]. destruct (IHr1 H1) as [-> C1], (IHr2 H2) as [-> C2].
    split; [reflexivity|]. split; assumption.
  - intros H. destruct (IHr H) as [-> C]. split; [reflexivity|]. split; assumption.
Qed.

Lemma test_toLowerCase r s : caseBlind r -> test r (toLowerCase s) = test r s.
Proof.
  revert r. induction s as [|a s IH]; intros r Hr; simpl; [reflexivity|].
  destruct (caseBlind_deriv a r Hr) as [-> Hd]. apply IH, Hd.
Qed.

Lemma emailRegex_caseBlind : caseBlind emailRegex.
Proof.
  unfold emailRegex, Plus; simpl.
  repeat split; intros a; destruct a as [[] [] [] [] [] [] [] []]; reflexivity.
Qed.

(** Whether an address is well formed does not depend on its case. *)
Lemma valid_email_toLowerCase e :
  test emailRegex (toLowerCase e) = test emailRegex e.
Proof. apply test_toLowerCase, emailRegex_caseBlind. Qed.

(** ** [parseInt] reads back the decimal rendering of an integer

    [pretty z] is the decimal rendering of [z], as [String(z)] gives it. *)

Lemma pretty_N_char_value m :
  (m < 10)%N ->
  digitValue (pretty_N_char m) = Some (Z.of_N m) ∧ isDigit (pretty_N_char m) = true.
Proof.
  intros Hm.
  assert (m = 0 ∨ m = 1 ∨ m = 2 ∨ m = 3 ∨ m = 4 ∨ m = 5 ∨ m = 6 ∨ m = 7
          ∨ m = 8 ∨ m = 9)%N as H by lia.
  repeat (destruct H as [->|H]; [split; reflexivity|]). subst m. split; reflexivity.
Qed.

Lemma parseDigits_digit m s acc :
  (m < 10)%N ->
  parseDigits 10 (String (pretty_N_char m) s) acc
  = parseDigits 10 s (Some (default 0 acc * 10 + Z.of_N m)).
Proof.
  intros Hm. cbn [parseDigits].
  destruct (pretty_N_char_value m Hm) as [-> _].
  replace (Z.of_N m <? 10) with true by lia. reflexivity.
Qed.

Lemma parseDigits_pretty_go x :
  (0 < x)%N ->
  ∃ k, ∀ s acc,
    parseDigits 10 (pretty_N_go x s) acc
    = parseDigits 10 s (Some (default 0 acc * 10 ^ k + Z.of_N x)) ∧ 0 <= k.
Proof.
  induction (N.lt_wf_0 x) as [x _ IH]. intros Hx.
  assert (Hmod : (x `mod` 10 < 10)%N) by (apply N.mod_lt; lia).
  assert (Hlt : (x `div` 10 < x)%N) by (apply N.div_lt; lia).
  assert (Hdiv : x = (10 * (x `div` 10) + x `mod` 10)%N) by (apply N.div_mod; lia).
  assert (HZ : Z.of_N x = 10 * Z.of_N (x `div` 10) + Z.of_N (x `mod` 10)).
  { rewrite <- (N2Z.inj_mul 10), <- N2Z.inj_add. f_equal. exact Hdiv. }
  destruct (decide (x `div` 10 = 0)%N) as [Hz|Hnz].
  - exists 1. intros s acc. rewrite pretty_N_go_step by assumption.
    rewrite Hz, pretty_N_go_0, parseDigits_digit by assumption.
    split; [|lia]. do 2 f_equal. rewrite HZ, Hz, Z.pow_1_r. change (Z.of_N 0) with 0. ring.
  - destruct (IH (x `div` 10)%N Hlt) as [k Hk]; [lia|].
    exists (k + 1). intros s acc. rewrite pretty_N_go_step by assumption.
    destruct (Hk (String (pretty_N_char (x `mod` 10)) s) acc) as [-> Hk0].
    rewrite parseDigits_digit by assumption. split; [|lia].
    do 2 f_equal. cbn [default]. rewrite Z.pow_add_r, Z.pow_1_r, HZ by lia.
    unfold Datatypes.id. ring.
Qed.

Lemma allChars_pretty_go x s :
  allChars isDigit s = true -> allChars isDigit (pretty_N_go x s) = true.
Proof.
  revert s. induction (N.lt_wf_0 x) as [x _ IH]. intros s Hs.
  destruct (decide (0 < x)%N) as [Hx|Hx].
  - rewrite pretty_N_go_step by assumption. apply IH; [apply N.div_lt; lia|].
    cbn. rewrite Hs.
    destruct (pretty_N_char_value (x `mod` 10)) as [_ ->]; [apply N.mod_lt; lia|].
    reflexivity.
  - assert (x = 0%N) as -> by lia. rewrite pretty_N_go_0. assumption.
Qed.

Lemma isDigit_cases c :
  isDigit c = true ->
  isWhiteSpace c = false ∧ c ≠ "-"%char ∧ c ≠ "+"%char ∧ c ≠ "x"%char ∧ c ≠ "X"%char.
Proof.
  destruct c as [[] [] [] [] [] [] [] []]; try discriminate; intros _;
    repeat split; discriminate.
Qed.

Lemma decimal_radix c s :
  allChars isDigit (String c s) = true ->
  match String c s with
  | String "0"%char (String "x"%char r) => (16, r)
  | String "0"%char (String "X"%char r) => (16, r)
  | _ => (10, String c s)
  end = (10, String c s).
Proof.
  intros [_ Hs]%andb_true_iff.
  destruct s as [|d s]; [destruct c as [[] [] [] [] [] [] [] []]; reflexivity|].
  apply andb_true_iff in Hs as [Hd _].
  destruct (isDigit_cases d Hd) as (_ & _ & _ & Hx & HX).
  destruct c as [[] [] [] [] [] [] [] []]; try reflexivity;
    destruct d as [[] [] [] [] [] [] [] []]; try reflexivity; congruence.
Qed.

(** On a non-empty string of decimal digits [parseInt] reads all of it
    in radix 10, also after a minus sign. *)
Lemma parseInt_digits s :
  s ≠ "" -> allChars isDigit s = true -> parseInt s = parseDigits 10 s None.
Proof.
  destruct s as [|c s]; [congruence|]. intros _ Hall.
  pose proof Hall as [Hc Hs]%andb_true_iff.
  destruct (isDigit_cases c Hc) as (Hw & Hm & Hp & _).
  unfold parseInt. cbn [trimStart]. rewrite Hw.
  assert (Hsign : match String c s with
                  | String "-"%char r => (-1, r)
                  | String "+"%char r => (1, r)
                  | _ => (1, String c s)
                  end = (1, String c s)).
  { destruct c as [[] [] [] [] [] [] [] []]; try reflexivity; congruence. }
  rewrite Hsign, (decimal_radix c s Hall).
  destruct (parseDigits 10 (String c s) None); [f_equal; lia|reflexivity].
Qed.

Lemma parseInt_minus_digits s :
  s ≠ "" -> allChars isDigit s = true ->
  parseInt (String "-" s) = Z.opp <$> parseDigits 10 s None.
Proof.
  destruct s as [|c s]; [congruence|]. intros _ Hall.
  unfold parseInt. cbn [trimStart].
  change (isWhiteSpace "-") with false. cbv iota.
  rewrite (decimal_radix c s Hall).
  destruct (parseDigits 10 (String c s) None); [cbn; f_equal; lia|reflexivity].
Qed.

Lemma pretty_go_nonempty x : (0 < x)%N -> pretty_N_go x "" ≠ "".
Proof.
  intros Hx Hempty. destruct (parseDigits_pretty_go x Hx) as [k Hk].
  destruct (Hk "" None) as [H _]. rewrite Hempty in H. discriminate H.
Qed.

Lemma parseDigits_pretty_pos p :
  parseDigits 10 (pretty_N_go (Npos p) "") None = Some (Zpos p).
Proof.
  destruct (parseDigits_pretty_go (Npos p)) as [k Hk]; [lia|].
  destruct (Hk "" None) as [-> _]. reflexivity.
Qed.

(** [parseInt(String(z)) = z] for every integer [z]. *)
Lemma parseInt_pretty (z : Z) : parseInt (pretty z) = Some z.
Proof.
  assert (Hgo : ∀ p, pretty (Npos p) = pretty_N_go (Npos p) "").
  { intros p. unfold pretty, pretty_N. rewrite decide_False by discriminate. reflexivity. }
  destruct z as [|p|p]; [reflexivity| |].
  - change (pretty (Zpos p)) with (pretty (Npos p)). rewrite Hgo.
    rewrite parseInt_digits;
      [|apply pretty_go_nonempty; lia|apply allChars_pretty_go; reflexivity].
    apply parseDigits_pretty_pos.
  - change (pretty (Zneg p)) with (String "-" (pretty (Npos p))). rewrite Hgo.
    rewrite parseInt_minus_digits;
      [|apply pretty_go_nonempty; lia|apply allChars_pretty_go; reflexivity].
    rewrite parseDigits_pretty_pos. reflexivity.
Qed.

(** ** Running the monad *)

Arguments test : simpl never.
Arguments trim : simpl never.
Arguments toLowerCase : simpl never.
Arguments parseInt : simpl never.
Arguments JsString.length : simpl never.
Arguments includes : simpl never.

Ltac run :=
  repeat progress
    (unfold try_catch, bind, ret, json_, internalServerError, getUsers, setUsers,
       throw, lift, postIncrementNextId, newDate, isValidEmail; cbn).

Lemma findM_returns (g : user -> bool) us w :
  findM (λ u w', (w', Returned (g u))) us w = (w, Returned (List.find g us)).
Proof.
  induction us as [|u us IH]; [reflexivity|].
  simpl. unfold bind. destruct (g u); [reflexivity|apply IH].
Qed.

Lemma findM_throws e us w :
  findM (λ u w', (w', Thrown e)) us w
  = (w, match us with [] => Returned None | _ => Thrown e end).
Proof. destruct us; reflexivity. Qed.

Lemma post_success n e w :
  2 <= length (trim n) -> test emailRegex e = true ->
  List.find (sameEmail e) (users w) = None ->
  post_api_users (Payload (Some (JStr n)) (Some (JStr e))) w
  = (World (users w ++ [createdUser w n e]) (nextId w + 1) (S (S (reads w))),
     Returned (Response 201 (MessageUser "User created successfully" (createdUser w n e)))).
Proof.
  intros Hn He Hfree. unfold post_api_users, post_api_users_try. run.
  assert (Hn' : (length (trim n) <? 2) = false) by lia.
  destruct n as [|c n]; [vm_compute in Hn; congruence|].
  destruct e as [|d e]; [discriminate|].
  simpl. rewrite Hn'. rewrite He. simpl.
  rewrite findM_returns. fold (sameEmail (String d e)). rewrite Hfree. simpl.
  reflexivity.
Qed.


Arguments assignAt : simpl never.
Arguments userAt : simpl never.
Arguments spliceAt : simpl never.

Lemma assignAt_found i f w u :
  users w !! i = Some u ->
  assignAt i f w = (World (alter f i (users w)) (nextId w) (reads w), Returned ()).
Proof. intros H. unfold assignAt. rewrite H. reflexivity. Qed.

Lemma userAt_found i w u : users w !! i = Some u -> userAt i w = (w, Returned u).
Proof. intros H. unfold userAt. rewrite H. reflexivity. Qed.

Lemma spliceAt_found i w u :
  users w !! i = Some u ->
  spliceAt i w = (World (delete i (users w)) (nextId w) (reads w), Returned u).
Proof. intros H. unfold spliceAt. rewrite H. reflexivity. Qed.

Lemma put_success idParam b w i target :
  list_find (idIs (parseInt idParam)) (users w) = Some (i, target) ->
  nameAccepted b -> emailAccepted (parseInt idParam) b (users w) ->
  put_api_users_id idParam b w
  = (World (alter (updatedUser b (clock (reads w))) i (users w)) (nextId w) (S (reads w)),
     Returned (Response 200 (MessageUser "User updated successfully"
                               (updatedUser b (clock (reads w)) target)))).
Proof.
  intros Hfind Hname Hemail.
  pose proof Hfind as [Hi [Hid _]]%list_find_Some.
  unfold put_api_users_id, put_api_users_id_try. run.
  destruct (parseInt idParam) as [userId|] eqn:Hparse; [|discriminate Hid].
  simpl. rewrite Hfind.
  destruct b as [bname bemail]; unfold nameAccepted, emailAccepted in *; simpl in *.
  assert (Hskip : defined bname && invalidName bname = false).
  { destruct Hname as [->|(n & -> & Hn)]; simpl; [reflexivity|lia]. }
  rewrite Hskip.
  destruct Hemail as [->|(e & -> & He & Hfree)]; simpl.
  - destruct Hname as [->|(n & -> & Hn)]; simpl.
    + erewrite assignAt_found by (simpl; eassumption). simpl.
      erewrite userAt_found
        by (simpl; rewrite list_lookup_alter_eq, Hi; reflexivity).
      reflexivity.
    + erewrite assignAt_found by (simpl; eassumption). simpl.
      erewrite assignAt_found
        by (simpl; rewrite list_lookup_alter_eq, Hi; reflexivity).
      simpl. rewrite list_alter_alter_eq.
      erewrite userAt_found
        by (simpl; rewrite list_lookup_alter_eq, Hi; reflexivity).
      reflexivity.
  - rewrite He. simpl. rewrite findM_returns.
    change (λ u, eqb (toLowerCase (email u)) (toLowerCase e)
                 && negb (bool_decide (idIs (Some userId) u)))
      with (λ u, sameEmail e u && negb (bool_decide (idIs (Some userId) u))).
    rewrite Hfree. simpl.
    destruct Hname as [->|(n & -> & Hn)]; simpl.
    + erewrite assignAt_found by (simpl; eassumption). simpl.
      erewrite assignAt_found
        by (simpl; rewrite list_lookup_alter_eq, Hi; reflexivity).
      simpl. rewrite list_alter_alter_eq.
      erewrite userAt_found
        by (simpl; rewrite list_lookup_alter_eq, Hi; reflexivity).
      reflexivity.
    + erewrite assignAt_found by (simpl; eassumption). simpl.
      erewrite assignAt_found
        by (simpl; rewrite list_lookup_alter_eq, Hi; reflexivity).
      simpl.
      erewrite assignAt_found
        by (simpl; rewrite !list_lookup_alter_eq, Hi; reflexivity).
      simpl. rewrite !list_alter_alter_eq.
      erewrite userAt_found
        by (simpl; rewrite list_lookup_alter_eq, Hi; reflexivity).
      reflexivity.
Qed.


Arguments ToString : simpl never.

Lemma list_find_nonempty {A} (P : A -> Prop) `{!∀ x, Decision (P x)} l i x :
  list_find P l = Some (i, x) -> l ≠ [].
Proof. intros Hfind ->. discriminate Hfind. Qed.

(** Every [PUT] either leaves the state alone and answers 400, 404 or
    409 if it answers at all, or meets the conditions of [put_success]. *)
Lemma put_outcome idParam b w :
  ((put_api_users_id idParam b w).1 = w ∧
   ∀ resp, (put_api_users_id idParam b w).2 = Returned resp ->
     status resp = 400 ∨ status resp = 404 ∨ status resp = 409)
  ∨ ∃ i target,
      list_find (idIs (parseInt idParam)) (users w) = Some (i, target) ∧
      nameAccepted b ∧ emailAccepted (parseInt idParam) b (users w).
Proof.
  destruct (parseInt idParam) as [userId|] eqn:Hparse.
  2:{ left. unfold put_api_users_id, put_api_users_id_try. run. rewrite Hparse. simpl.
      split; [reflexivity|]. intros resp [= <-]. cbn. tauto. }
  destruct (list_find (idIs (Some userId)) (users w)) as [[i target]|] eqn:Hfind.
  2:{ left. unfold put_api_users_id, put_api_users_id_try. run. rewrite Hparse. simpl. rewrite Hfind.
      split; [reflexivity|]. intros resp [= <-]. cbn. tauto. }
  destruct b as [bname bemail].
  destruct (defined bname && invalidName bname) eqn:Hname.
  { left. unfold put_api_users_id, put_api_users_id_try. run. rewrite Hparse. simpl. rewrite Hfind, Hname.
    split; [reflexivity|]. intros resp [= <-]. cbn. tauto. }
  assert (Hacc : nameAccepted (Payload bname bemail)).
  { unfold nameAccepted; simpl. destruct bname as [[]|]; try discriminate Hname;
      [right|left; reflexivity].
    eexists; split; [reflexivity|]. simpl in Hname. lia. }
  destruct bemail as [v|].
  2:{ right. exists i, target. repeat split; [assumption|]. left. reflexivity. }
  destruct (ToString v) as [s|err] eqn:Hstr.
  2:{ left. unfold put_api_users_id, put_api_users_id_try. run. rewrite Hparse. simpl. rewrite Hfind, Hname.
      simpl. rewrite Hstr. simpl. split; [reflexivity|]. intros resp [=]. }
  destruct (test emailRegex s) eqn:Htest.
  2:{ left. unfold put_api_users_id, put_api_users_id_try. run. rewrite Hparse. simpl. rewrite Hfind, Hname.
      simpl. rewrite Hstr. simpl. rewrite Htest. simpl.
      split; [reflexivity|]. intros resp [= <-]. cbn. tauto. }
  assert (Hne := list_find_nonempty _ _ _ _ Hfind).
  destruct v as [|flag|n|e|elements|properties];
    try (left; unfold put_api_users_id, put_api_users_id_try; run; rewrite Hparse; cbn;
         rewrite Hfind, Hname; cbn; rewrite Hstr; cbn; rewrite Htest; run;
         rewrite findM_throws; destruct (users w); [congruence|];
         split; [reflexivity|]; intros resp [=]).
  change (Returned e = Returned s) in Hstr. injection Hstr as Hs. subst s.
  destruct (List.find (λ u, sameEmail e u && negb (bool_decide (idIs (Some userId) u)))
              (users w)) as [other|] eqn:Hother.
  - left. unfold put_api_users_id, put_api_users_id_try. run. rewrite Hparse. simpl. rewrite Hfind, Hname.
    simpl. change (ToString (JStr e)) with (Returned e). simpl.
    rewrite Htest. simpl. rewrite findM_returns.
    change (λ u, eqb (toLowerCase (email u)) (toLowerCase e)
                 && negb (bool_decide (idIs (Some userId) u)))
      with (λ u, sameEmail e u && negb (bool_decide (idIs (Some userId) u))).
    rewrite Hother. simpl. split; [reflexivity|]. intros resp [= <-]. cbn. tauto.
  - right. exists i, target. repeat split; [assumption|]. right.
    exists e. repeat split; assumption.
Qed.


Arguments truthy : simpl never.
Arguments invalidName : simpl never.

(** Every [POST] either adds no user and does not answer 201, or meets
    the conditions of [post_success]. *)
Lemma post_outcome b w :
  (users (post_api_users b w).1 = users w ∧
   nextId w <= nextId (post_api_users b w).1 ∧
   reads (post_api_users b w).1 = reads w ∧
   ∀ resp, (post_api_users b w).2 = Returned resp -> status resp ≠ 201)
  ∨ ∃ n e, b = Payload (Some (JStr n)) (Some (JStr e)) ∧
           2 <= length (trim n) ∧ test emailRegex e = true ∧
           List.find (sameEmail e) (users w) = None.
Proof.
  destruct b as [bname bemail].
  destruct (negb (truthy bname) || negb (truthy bemail)) eqn:Hpresent.
  { left. unfold post_api_users, post_api_users_try. run. rewrite Hpresent.
    repeat split; [reflexivity|]. intros resp [= <-]. discriminate. }
  destruct (invalidName bname) eqn:Hname.
  { left. unfold post_api_users, post_api_users_try. run. rewrite Hpresent, Hname.
    repeat split; [reflexivity|]. intros resp [= <-]. discriminate. }
  destruct bname as [[| | |n| |]|]; try discriminate Hname.
  destruct bemail as [v|]; [|rewrite orb_true_r in Hpresent; discriminate].
  destruct (ToString v) as [s|err] eqn:Hstr.
  2:{ left. unfold post_api_users, post_api_users_try. run. rewrite Hpresent, Hname. cbn.
      rewrite Hstr. cbn. repeat split; [reflexivity|]. intros resp [= <-]. discriminate. }
  destruct (test emailRegex s) eqn:Htest.
  2:{ left. unfold post_api_users, post_api_users_try. run. rewrite Hpresent, Hname. cbn.
      rewrite Hstr. cbn. rewrite Htest. cbn.
      repeat split; [reflexivity|]. intros resp [= <-]. discriminate. }
  destruct v as [|flag|m|e|elements|properties];
    try (left; unfold post_api_users, post_api_users_try; run; rewrite Hpresent, Hname; cbn;
         rewrite Hstr; cbn; rewrite Htest; run;
         rewrite findM_throws; destruct (users w) eqn:Hus; cbn;
         (repeat split; [congruence|lia|]); intros resp [= <-]; discriminate).
  change (Returned e = Returned s) in Hstr. injection Hstr as Hs. subst s.
  destruct (List.find (sameEmail e) (users w)) as [other|] eqn:Hother.
  - left. unfold post_api_users, post_api_users_try. run. rewrite Hpresent, Hname. cbn.
    change (ToString (JStr e)) with (Returned e). cbn. rewrite Htest. cbn.
    rewrite findM_returns. fold (sameEmail e). rewrite Hother. cbn.
    repeat split; [reflexivity|]. intros resp [= <-]. discriminate.
  - right. exists n, e. repeat split; [|assumption..]. unfold invalidName in Hname. lia.
Qed.

Lemma get_users_state q w : (get_api_users q w).1 = w.
Proof. reflexivity. Qed.

Lemma get_user_outcome idParam w :
  get_api_users_id idParam w
  = (w, Returned
          match parseInt idParam with
          | None => Response 400 (Error "Invalid user ID format")
          | Some userId =>
              match list_find (idIs (Some userId)) (users w) with
              | None => Response 404 (Error "User not found")
              | Some (_, user) => Response 200 (UserObject user)
              end
          end).
Proof.
  unfold get_api_users_id, get_api_users_id_try. run. destruct (parseInt idParam); [|reflexivity].
  cbn. destruct (list_find _ _) as [[? ?]|]; reflexivity.
Qed.

Lemma delete_outcome idParam w :
  delete_api_users_id idParam w
  = match parseInt idParam with
    | None => (w, Returned (Response 400 (Error "Invalid user ID format")))
    | Some userId =>
        match list_find (idIs (Some userId)) (users w) with
        | None => (w, Returned (Response 404 (Error "User not found")))
        | Some (userIndex, deletedUser) =>
            (World (delete userIndex (users w)) (nextId w) (reads w),
             Returned (Response 200
               (MessageDeleted "User deleted successfully"
                  (id deletedUser) (name deletedUser) (email deletedUser))))
        end
    end.
Proof.
  unfold delete_api_users_id, delete_api_users_id_try. run. destruct (parseInt idParam); [|reflexivity].
  cbn. destruct (list_find _ _) as [[i u]|] eqn:Hfind; [|reflexivity].
  apply list_find_Some in Hfind as [Hi _].
  rewrite (spliceAt_found i w u Hi). reflexivity.
Qed.

Lemma app_route r w :
  app r w =
  let w1 := World (users w) (nextId w) (S (reads w)) in
  match route r w1 with
  | (w', Returned sent) => (w', sent)
  | (w', Thrown err) => (w', errorMiddleware err)
  end.
Proof. reflexivity. Qed.

Lemma app_state r w :
  (app r w).1 = (route r (World (users w) (nextId w) (S (reads w)))).1.
Proof. rewrite app_route. cbn. destruct (route r _) as [w' [|]]; reflexivity. Qed.


(** ** The invariant *)

Lemma NoDup_insert_fresh {A} (l : list A) i x :
  NoDup l -> (∀ j, j ≠ i -> l !! j ≠ Some x) -> NoDup (<[i:=x]> l).
Proof.
  intros Hl Hx. apply NoDup_alt. intros j k y Hj Hk.
  apply list_lookup_insert_Some in Hj as [(-> & -> & Hlt)|(Hji & Hj)];
    apply list_lookup_insert_Some in Hk as [(-> & Hy & Hlt')|(Hki & Hk)];
    try reflexivity.
  - destruct (Hx k); [congruence|assumption].
  - subst y. destruct (Hx j); [congruence|assumption].
  - eapply NoDup_lookup; eassumption.
Qed.

Lemma consistent_initial : consistent initial.
Proof.
  split; cbn.
  - apply (bool_decide_unpack _). vm_compute. exact I.
  - repeat constructor.
  - apply (bool_decide_unpack _). vm_compute. exact I.
  - repeat (constructor; [reflexivity|]). constructor.
Qed.

Lemma consistent_same w w' :
  users w' = users w -> nextId w <= nextId w' -> consistent w -> consistent w'.
Proof.
  intros Hu Hn [H1 H2 H3 H4]. split; rewrite Hu; try assumption.
  eapply Forall_impl; [exact H2|]. cbn. intros. lia.
Qed.

Lemma sameEmail_lowered e u : sameEmail e u = true <-> lowered u = toLowerCase e.
Proof. unfold sameEmail, eqb, lowered. apply bool_decide_eq_true. Qed.

Lemma lowered_created w n e :
  test emailRegex e = true -> lowered (createdUser w n e) = toLowerCase e.
Proof.
  intros He. unfold lowered, createdUser. cbn.
  rewrite (valid_email_stored _ He). apply toLowerCase_idemp.
Qed.

Lemma consistent_created w n e :
  test emailRegex e = true ->
  List.find (sameEmail e) (users w) = None ->
  consistent w ->
  consistent (World (users w ++ [createdUser w n e]) (nextId w + 1) (S (S (reads w)))).
Proof.
  intros He Hfree [H1 H2 H3 H4]. split; cbn; rewrite ?fmap_app; cbn.
  4:{ apply Forall_app_2; [assumption|]. apply Forall_singleton. cbn.
      rewrite (valid_email_stored _ He), valid_email_toLowerCase. exact He. }
  - apply NoDup_app. repeat split; [assumption| |apply NoDup_singleton].
    intros z Hz ->%list_elem_of_singleton.
    rewrite Forall_forall in H2. specialize (H2 _ Hz). cbn in H2. lia.
  - apply Forall_app. split; [|repeat constructor; lia].
    eapply Forall_impl; [exact H2|]. cbn. intros. lia.
  - apply NoDup_app. repeat split; [assumption| |apply NoDup_singleton].
    intros z Hz ->%list_elem_of_singleton.
    rewrite (lowered_created _ _ _ He) in Hz.
    apply list_elem_of_fmap in Hz as (u & Hu & Hin).
    apply list_elem_of_In in Hin.
    pose proof (List.find_none _ _ Hfree u Hin) as Hno.
    symmetry in Hu. apply sameEmail_lowered in Hu. congruence.
Qed.

Lemma ids_altered b t i (us : list user) :
  id <$> alter (updatedUser b t) i us = id <$> us.
Proof.
  rewrite (list_fmap_alter id (updatedUser b t) (λ z, z)).
  - apply list_alter_id. reflexivity.
  - apply Forall_forall. reflexivity.
Qed.

Lemma lowered_kept b t u : newEmail b = None -> lowered (updatedUser b t u) = lowered u.
Proof. intros H. unfold lowered, updatedUser. cbn. rewrite H. reflexivity. Qed.

Lemma lowered_replaced b t u e :
  body_email b = Some (JStr e) -> test emailRegex e = true ->
  lowered (updatedUser b t u) = toLowerCase e.
Proof.
  intros Hb He. unfold lowered, updatedUser, newEmail. cbn. rewrite Hb. cbn.
  rewrite (valid_email_stored _ He). apply toLowerCase_idemp.
Qed.

Lemma consistent_updated w userId b i target t r :
  list_find (idIs userId) (users w) = Some (i, target) ->
  emailAccepted userId b (users w) ->
  consistent w ->
  consistent (World (alter (updatedUser b t) i (users w)) (nextId w) r).
Proof.
  intros Hfind Hemail [H1 H2 H3 H4].
  apply list_find_Some in Hfind as (Hi & Hid & _).
  split; cbn; rewrite ?ids_altered; try assumption.
  2:{ apply Forall_alter; [assumption|]. intros u _ Hu. cbn.
      destruct Hemail as [Hnone|(e & Hb & He & _)]; unfold newEmail.
      - rewrite Hnone. exact Hu.
      - rewrite Hb. cbn.
        rewrite (valid_email_stored _ He), valid_email_toLowerCase. exact He. }
  destruct Hemail as [Hnone|(e & Hb & He & Hfree)].
  - rewrite (list_fmap_alter lowered (updatedUser b t) (λ z, z)).
    + rewrite list_alter_id; [assumption|reflexivity].
    + apply Forall_forall. intros u _. apply lowered_kept.
      unfold newEmail. rewrite Hnone. reflexivity.
  - rewrite (list_fmap_alter lowered (updatedUser b t) (λ _, toLowerCase e)).
    2:{ apply Forall_forall. intros u _. apply (lowered_replaced b t u e Hb He). }
    rewrite <- list_insert_alter. apply NoDup_insert_fresh; [assumption|].
    intros j Hj Hlook.
    rewrite list_lookup_fmap in Hlook.
    destruct (users w !! j) as [u|] eqn:Hu; [|discriminate].
    cbn in Hlook. injection Hlook as Hlow. apply sameEmail_lowered in Hlow.
    assert (Hin : In u (users w)).
    { apply list_elem_of_In. eapply list_elem_of_lookup_2, Hu. }
    pose proof (List.find_none _ _ Hfree u Hin) as Hno. cbn in Hno.
    rewrite Hlow in Hno. cbn in Hno. apply negb_false_iff in Hno.
    apply bool_decide_eq_true in Hno. unfold idIs in Hno, Hid.
    apply Hj. eapply (NoDup_lookup _ _ _ _ H1).
    + rewrite list_lookup_fmap, Hu. reflexivity.
    + rewrite list_lookup_fmap, Hi. cbn. congruence.
Qed.

Lemma consistent_deleted w i r :
  consistent w -> consistent (World (delete i (users w)) (nextId w) r).
Proof.
  intros [H1 H2 H3 H4]. split; cbn; rewrite ?list_fmap_delete.
  - eapply sublist_NoDup; [exact H1|apply sublist_delete].
  - apply Forall_delete, H2.
  - eapply sublist_NoDup; [exact H3|apply sublist_delete].
  - apply Forall_delete, H4.
Qed.

(** Every route preserves the invariant and never lowers the counter. *)
Lemma route_consistent r w :
  consistent w -> consistent (route r w).1 ∧ nextId w <= nextId (route r w).1.
Proof.
  intros Hw. destruct r as [q|idParam|b|idParam b|idParam]; cbn [route].
  - rewrite get_users_state. split; [assumption|lia].
  - rewrite get_user_outcome. cbn. split; [assumption|lia].
  - destruct (post_outcome b w) as [(Hu & Hn & _ & _)|(n & e & -> & Hn & He & Hfree)].
    + split; [|assumption]. eapply consistent_same; eassumption.
    + rewrite (post_success n e w Hn He Hfree). cbn. split; [|lia].
      apply consistent_created; assumption.
  - destruct (put_outcome idParam b w) as [[-> _]|(i & target & Hfind & Hname & Hemail)].
    + split; [assumption|lia].
    + rewrite (put_success idParam b w i target Hfind Hname Hemail). cbn.
      split; [|lia]. eapply consistent_updated; eassumption.
  - rewrite delete_outcome. destruct (parseInt idParam) as [userId|]; cbn.
    2:{ split; [assumption|lia]. }
    destruct (list_find _ _) as [[i u]|]; cbn; (split; [|lia]);
      [apply consistent_deleted|]; assumption.
Qed.

Lemma app_consistent r w :
  consistent w -> consistent (app r w).1 ∧ nextId w <= nextId (app r w).1.
Proof.
  intros Hw. rewrite app_state.
  apply (route_consistent r (World (users w) (nextId w) (S (reads w)))).
  destruct Hw. split; assumption.
Qed.

Lemma reaches_consistent w0 w :
  consistent w0 -> reaches w0 w -> consistent w ∧ nextId w0 <= nextId w.
Proof.
  intros H0. induction 1 as [|r w Hr [IH1 IH2]|w Hr [IH1 IH2]].
  - split; [assumption|lia].
  - destruct (app_consistent r w IH1). split; [assumption|lia].
  - split; [|cbn; lia]. destruct IH1. split; assumption.
Qed.

Lemma reachable_consistent w : reachable w -> consistent w.
Proof. intros H. apply (reaches_consistent initial w consistent_initial H). Qed.


(** ** The handlers, claim by claim *)

Lemma presentButFalsy_truthy v : presentButFalsy v -> truthy v = false.
Proof.
  intros [->|[->|[->|(n & -> & Hn)]]]; unfold truthy; try reflexivity.
  rewrite Hn. reflexivity.
Qed.

Lemma post_missing b w :
  truthy (body_name b) = false ∨ truthy (body_email b) = false ->
  post_api_users b w = (w, Returned (validationFailed b)).
Proof.
  intros H. unfold post_api_users, post_api_users_try, validationFailed. run.
  destruct H as [H|H]; rewrite H; cbn; [reflexivity|].
  rewrite orb_true_r. reflexivity.
Qed.

(** C10.  A create request whose name or e-mail is present but falsy
    (the empty string, [null], a zero number, [false]) is answered as if
    the field were absent: 400 [Validation failed] with the per-field
    [... is required] detail, whatever the other field and the store
    are, so that no later check is reached; the store is unchanged. *)
Theorem post_falsy_field_is_missing b w :
  presentButFalsy (body_name b) ∨ presentButFalsy (body_email b) ->
  post_api_users b w = (w, Returned (validationFailed b)) ∧
  post_api_users b w = post_api_users (withoutFalsy b) w ∧
  (presentButFalsy (body_name b) ->
     ∃ d, sent (validationFailed b) = ErrorDetails "Validation failed" (Some "Name is required") d) ∧
  (presentButFalsy (body_email b) ->
     ∃ d, sent (validationFailed b) = ErrorDetails "Validation failed" d (Some "Email is required")).
Proof.
  intros H.
  assert (Hf : truthy (body_name b) = false ∨ truthy (body_email b) = false).
  { destruct H as [H|H]; [left|right]; apply presentButFalsy_truthy, H. }
  split; [apply post_missing, Hf|]. split.
  - rewrite (post_missing b w Hf).
    rewrite (post_missing (withoutFalsy b) w).
    + unfold validationFailed, withoutFalsy. cbn.
      destruct (truthy (body_name b)) eqn:Hn, (truthy (body_email b)) eqn:He;
        rewrite ?Hn, ?He; reflexivity.
    + unfold withoutFalsy. cbn.
      destruct Hf as [Hf|Hf]; rewrite Hf; [left|right]; reflexivity.
  - split; intros Hp; apply presentButFalsy_truthy in Hp;
      unfold validationFailed; cbn; rewrite Hp; eexists; reflexivity.
Qed.

(** C9.  A failure raised in the [try] block of the update handler is
    not answered by the handler: its [catch] block calls
    [res.status.status(500)], which throws, so the failure leaves the
    handler, and the handler never answers 500.  In the create handler
    such a failure is answered 500 [Internal server error], and every
    handler but the update handler always answers.  The body
    [{email: ["a@b.c"]}] raises a failure in both the create and the
    update handler; outside production the error middleware then answers
    the update with the text of the second error. *)
Theorem put_internal_failure_escapes :
  (∀ idParam b w w' e,
     put_api_users_id_try idParam b w = (w', Thrown e) ->
     put_api_users_id idParam b w
     = (w', Thrown (TypeError "res.status.status is not a function"))) ∧
  (∀ idParam b w resp,
     (put_api_users_id idParam b w).2 = Returned resp -> status resp ≠ 500) ∧
  (∀ b w w' e,
     post_api_users_try b w = (w', Thrown e) ->
     post_api_users b w = (w', Returned (Response 500 (Error "Internal server error")))) ∧
  (∀ r w, (∀ idParam b, r ≠ PUT_user idParam b) ->
     ∃ resp, (route r w).2 = Returned resp) ∧
  let b := Payload None (Some (JArr [JStr "a@b.c"])) in
  let b' := Payload (Some (JStr "Bob")) (Some (JArr [JStr "a@b.c"])) in
  put_api_users_id_try "1" b initial
    = (initial, Thrown (TypeError "toLowerCase is not a function")) ∧
  put_api_users_id "1" b initial
    = (initial, Thrown (TypeError "res.status.status is not a function")) ∧
  post_api_users_try b' initial
    = (initial, Thrown (TypeError "toLowerCase is not a function")) ∧
  post_api_users b' initial
    = (initial, Returned (Response 500 (Error "Internal server error"))) ∧
  (app (PUT_user "1" b) initial).2
    = Response 500 (if production then Error "Internal server error"
                    else ErrorStack "Internal server error"
                                    "res.status.status is not a function").
Proof.
  split; [|split; [|split; [|split] ] ].
  - intros idParam b w w' e H. unfold put_api_users_id, try_catch. rewrite H. reflexivity.
  - intros idParam b w resp Hresp.
    destruct (put_outcome idParam b w) as [[_ H]|(i & target & Hfind & Hn & He)].
    + destruct (H resp Hresp) as [E | [E | E]]; rewrite E; discriminate.
    + rewrite (put_success idParam b w i target Hfind Hn He) in Hresp.
      injection Hresp as <-. discriminate.
  - intros b w w' e H. unfold post_api_users, try_catch. rewrite H. reflexivity.
  - intros r w Hr. destruct r as [q|idParam|b|idParam b|idParam]; cbn [route].
    + eexists. reflexivity.
    + rewrite get_user_outcome. eexists. reflexivity.
    + unfold post_api_users, try_catch, internalServerError, json_, ret.
      destruct (post_api_users_try b w) as [w' [resp|e]]; eexists; reflexivity.
    + destruct (Hr idParam b eq_refl).
    + rewrite delete_outcome. destruct (parseInt idParam); [|eexists; reflexivity].
      destruct (list_find _ _) as [[i u]|]; eexists; reflexivity.
  - cbn zeta. repeat split; try reflexivity.
    vm_compute. destruct production; reflexivity.
Qed.


Lemma list_find_idIs_parsed idParam (us : list user) i u :
  list_find (idIs (parseInt idParam)) us = Some (i, u) ->
  parseInt idParam = Some (id u) ∧ us !! i = Some u.
Proof.
  intros (Hi & Hid & _)%list_find_Some. unfold idIs in Hid. split; congruence.
Qed.

Lemma post_short_name n email w :
  n ≠ "" -> truthy email = true -> length (trim n) < 2 ->
  post_api_users (Payload (Some (JStr n)) email) w = (w, Returned nameTooShort).
Proof.
  intros Hn He Hshort. unfold post_api_users, post_api_users_try, nameTooShort. run. rewrite He.
  assert (Ht : truthy (Some (JStr n)) = true) by (destruct n; [congruence|reflexivity]).
  rewrite Ht. cbn.
  assert (Hi : invalidName (Some (JStr n)) = true) by (unfold invalidName; lia).
  rewrite Hi. reflexivity.
Qed.

Lemma put_short_name idParam n email w i target :
  list_find (idIs (parseInt idParam)) (users w) = Some (i, target) ->
  length (trim n) < 2 ->
  put_api_users_id idParam (Payload (Some (JStr n)) email) w = (w, Returned nameTooShort).
Proof.
  intros Hfind Hshort. destruct (list_find_idIs_parsed _ _ _ _ Hfind) as [Hp _].
  unfold put_api_users_id, put_api_users_id_try, nameTooShort. run. rewrite Hp in *. cbn. rewrite Hfind.
  assert (Hi : invalidName (Some (JStr n)) = true) by (unfold invalidName; lia).
  cbn. rewrite Hi. reflexivity.
Qed.

(** C8, as the code has it.  Create and update compare the threshold
    of 2 with the length of the trimmed name: a name whose trimmed
    length is below 2 is rejected with 400 whatever its raw length, and a
    name that is accepted is stored trimmed. *)
Theorem name_length_checked_after_trim n :
  (length (trim n) < 2 ->
     (∀ email w, n ≠ "" -> truthy email = true ->
        post_api_users (Payload (Some (JStr n)) email) w = (w, Returned nameTooShort)) ∧
     (∀ idParam email w i target,
        list_find (idIs (parseInt idParam)) (users w) = Some (i, target) ->
        put_api_users_id idParam (Payload (Some (JStr n)) email) w
        = (w, Returned nameTooShort))) ∧
  (∀ email w w' message u,
     post_api_users (Payload (Some (JStr n)) email) w
     = (w', Returned (Response 201 (MessageUser message u))) ->
     2 <= length (trim n) ∧ name u = trim n ∧ users w' = users w ++ [u]) ∧
  (∀ idParam email w w' message u,
     put_api_users_id idParam (Payload (Some (JStr n)) email) w
     = (w', Returned (Response 200 (MessageUser message u))) ->
     2 <= length (trim n) ∧ name u = trim n ∧ u ∈ users w').
Proof.
  split; [|split].
  - intros Hshort. split.
    + intros email w Hn He. apply post_short_name; assumption.
    + intros idParam email w i target Hfind. eapply put_short_name; eassumption.
  - intros email w w' message u Hpost.
    destruct (post_outcome (Payload (Some (JStr n)) email) w)
      as [(_ & _ & _ & Hno)|(n' & e & Hb & Hn & He & Hfree)].
    + rewrite Hpost in Hno. destruct (Hno _ eq_refl). reflexivity.
    + injection Hb as <- ->. rewrite (post_success n e w Hn He Hfree) in Hpost.
      injection Hpost as <- _ <-. split; [assumption|split; reflexivity].
  - intros idParam email w w' message u Hput.
    destruct (put_outcome idParam (Payload (Some (JStr n)) email) w)
      as [[_ Hno]|(i & target & Hfind & Hname & Hemail)].
    + rewrite Hput in Hno. destruct (Hno _ eq_refl) as [E | [E | E]]; discriminate E.
    + rewrite (put_success _ _ _ _ _ Hfind Hname Hemail) in Hput.
      injection Hput as <- _ <-. cbn.
      destruct Hname as [Hnone|(n' & [= <-] & Hn)]; [discriminate Hnone|].
      split; [assumption|split; [reflexivity|] ].
      apply list_find_Some in Hfind as (Hi & _).
      eapply list_elem_of_lookup_2 with (i := i).
      rewrite list_lookup_alter_eq, Hi. reflexivity.
Qed.

(** C6.  A successful update changes, in the record it addresses, the
    fields present in the payload and [updatedAt], and nothing else: an
    absent name or e-mail keeps the stored one, [id] and [createdAt] are
    kept, [updatedAt] becomes the clock read of the request; every other
    record, the order and the length of the collection and the id
    counter are unchanged. *)
Theorem put_changes_only_given_fields idParam b w w' resp :
  put_api_users_id idParam b w = (w', Returned resp) -> status resp = 200 ->
  ∃ i old new,
    users w !! i = Some old ∧ parseInt idParam = Some (id old) ∧
    users w' !! i = Some new ∧
    resp = Response 200 (MessageUser "User updated successfully" new) ∧
    id new = id old ∧ createdAt new = createdAt old ∧
    updatedAt new = Some (clock (reads w)) ∧
    (body_name b = None ∧ name new = name old ∨
     ∃ n, body_name b = Some (JStr n) ∧ name new = trim n) ∧
    (body_email b = None ∧ email new = email old ∨
     ∃ e, body_email b = Some (JStr e) ∧ email new = trim (toLowerCase e)) ∧
    (∀ j, j ≠ i -> users w' !! j = users w !! j) ∧
    List.length (users w') = List.length (users w) ∧
    nextId w' = nextId w.
Proof.
  intros Hput Hok.
  destruct (put_outcome idParam b w) as [[_ Hno]|(i & old & Hfind & Hname & Hemail)].
  { rewrite Hput in Hno. destruct (Hno _ eq_refl) as [E | [E | E]];
      rewrite E in Hok; discriminate Hok. }
  rewrite (put_success _ _ _ _ _ Hfind Hname Hemail) in Hput.
  injection Hput as <- <-.
  destruct (list_find_idIs_parsed _ _ _ _ Hfind) as [Hp Hi].
  exists i, old, (updatedUser b (clock (reads w)) old). cbn.
  repeat split; try assumption.
  - rewrite list_lookup_alter_eq, Hi. reflexivity.
  - unfold newName.
    destruct Hname as [->|(n & -> & _)]; [left|right; exists n]; split; reflexivity.
  - unfold newEmail.
    destruct Hemail as [->|(e & -> & _)]; [left|right; exists e]; split; reflexivity.
  - intros j Hj. apply list_lookup_alter_ne. congruence.
  - apply length_alter.
Qed.

(** C7.  The three users the module starts with carry [createdAt]
    only: in the initial state, which is reachable, none of them has an
    [updatedAt], and [GET /api/users/1] answers with such a record. *)
Theorem seed_users_have_no_updatedAt :
  reachable initial ∧
  Forall (λ u, updatedAt u = None) (users initial) ∧
  get_api_users_id "1" initial
  = (initial,
     Returned (Response 200
       (UserObject (User 1 "John Doe" "john@example.com" (clock 0) None)))).
Proof.
  split; [constructor|]. split; [repeat constructor|reflexivity].
Qed.


Lemma find_sameEmail_Some (g : user -> bool) e us u :
  u ∈ us -> lowered u = toLowerCase e -> g u = true ->
  ∃ v, List.find (λ u, sameEmail e u && g u) us = Some v.
Proof.
  intros Hin Hlow Hg.
  destruct (List.find _ us) as [v|] eqn:Hfind; [exists v; reflexivity|].
  apply list_elem_of_In in Hin.
  pose proof (List.find_none _ _ Hfind u Hin) as Hno. cbn in Hno.
  apply sameEmail_lowered in Hlow. rewrite Hlow, Hg in Hno. discriminate Hno.
Qed.

Lemma post_duplicate n e w other :
  2 <= length (trim n) -> test emailRegex e = true ->
  List.find (sameEmail e) (users w) = Some other ->
  post_api_users (Payload (Some (JStr n)) (Some (JStr e))) w
  = (w, Returned duplicateOnCreate).
Proof.
  intros Hn He Hdup. unfold post_api_users, post_api_users_try, duplicateOnCreate. run.
  assert (Hn' : invalidName (Some (JStr n)) = false) by (unfold invalidName; lia).
  assert (Ht : truthy (Some (JStr n)) = true).
  { destruct n; [vm_compute in Hn; congruence|reflexivity]. }
  assert (Ht' : truthy (Some (JStr e)) = true) by (destruct e; [discriminate|reflexivity]).
  rewrite Ht, Ht', Hn'. cbn. change (ToString (JStr e)) with (Returned e). cbn.
  rewrite He. cbn. rewrite findM_returns. fold (sameEmail e). rewrite Hdup. reflexivity.
Qed.

Lemma put_duplicate idParam b e w i target other :
  list_find (idIs (parseInt idParam)) (users w) = Some (i, target) ->
  nameAccepted b -> body_email b = Some (JStr e) -> test emailRegex e = true ->
  List.find (λ u, sameEmail e u && negb (bool_decide (idIs (parseInt idParam) u)))
    (users w) = Some other ->
  put_api_users_id idParam b w = (w, Returned duplicateOnUpdate).
Proof.
  intros Hfind Hname Hb He Hdup.
  destruct (list_find_idIs_parsed _ _ _ _ Hfind) as [Hp _].
  unfold put_api_users_id, put_api_users_id_try, duplicateOnUpdate. run. rewrite Hp in *. cbn. rewrite Hfind.
  destruct b as [bname bemail]. cbn in Hb. subst bemail.
  assert (Hskip : defined bname && invalidName bname = false).
  { destruct Hname as [Hn|(n & Hn & Hlen)]; cbn in Hn; subst bname;
      [reflexivity|]. unfold invalidName. cbn. lia. }
  cbn. rewrite Hskip. cbn. change (ToString (JStr e)) with (Returned e). cbn.
  rewrite He. cbn. rewrite findM_returns.
  change (λ u, eqb (toLowerCase (email u)) (toLowerCase e)
               && negb (bool_decide (idIs (Some (id target)) u)))
    with (λ u, sameEmail e u && negb (bool_decide (idIs (Some (id target)) u))).
  rewrite Hdup. reflexivity.
Qed.

(** C5.  In every reachable state no two users hold e-mail addresses
    that are equal up to case.  A create request whose address is held,
    up to case, by an existing user adds nothing and is never answered
    201; it is answered 409 as soon as its name passes the name check.
    An update whose new address is held by a user other than the target
    is answered 409 as soon as its name, if any, passes the name check,
    and changes nothing. *)
Theorem emails_stay_unique w :
  reachable w ->
  (∀ i j u v, users w !! i = Some u -> users w !! j = Some v ->
     toLowerCase (email u) = toLowerCase (email v) -> i = j) ∧
  (∀ b e holder,
     body_email b = Some (JStr e) -> holder ∈ users w ->
     toLowerCase (email holder) = toLowerCase e ->
     users (post_api_users b w).1 = users w ∧
     (∀ resp, (post_api_users b w).2 = Returned resp -> status resp ≠ 201) ∧
     (∀ n, body_name b = Some (JStr n) -> 2 <= length (trim n) ->
        post_api_users b w = (w, Returned duplicateOnCreate))) ∧
  (∀ idParam b e i target holder,
     list_find (idIs (parseInt idParam)) (users w) = Some (i, target) ->
     nameAccepted b -> body_email b = Some (JStr e) ->
     holder ∈ users w -> id holder ≠ id target ->
     toLowerCase (email holder) = toLowerCase e ->
     put_api_users_id idParam b w = (w, Returned duplicateOnUpdate)).
Proof.
  intros Hw. apply reachable_consistent in Hw as [_ _ Hemails Hvalid].
  assert (Hwell : ∀ e holder, holder ∈ users w ->
            toLowerCase (email holder) = toLowerCase e -> test emailRegex e = true).
  { intros e holder Hin Hsame. rewrite Forall_forall in Hvalid.
    rewrite <- valid_email_toLowerCase, <- Hsame, valid_email_toLowerCase.
    apply Hvalid, Hin. }
  split; [|split].
  - intros i j u v Hi Hj Hsame.
    apply (NoDup_lookup _ i j (lowered u) Hemails);
      rewrite list_lookup_fmap; [rewrite Hi|rewrite Hj]; cbn; [reflexivity|].
    unfold lowered. congruence.
  - intros b e holder Hb Hin Hsame.
    destruct (find_sameEmail_Some (λ _, true) e (users w) holder Hin Hsame eq_refl)
      as [other Hother].
    assert (Hdup : List.find (sameEmail e) (users w) = Some other).
    { rewrite <- Hother. clear. induction (users w) as [|u us IH]; [reflexivity|].
      cbn. rewrite andb_true_r. destruct (sameEmail e u); [reflexivity|exact IH]. }
    destruct (post_outcome b w) as [(Hu & _ & _ & Hno)|(n' & e' & -> & _ & _ & Hfree)].
    + split; [exact Hu|]. split; [exact Hno|].
      intros n Hbn Hn. destruct b as [bname bemail]. cbn in Hb, Hbn. subst.
      eapply post_duplicate; [exact Hn|exact (Hwell e holder Hin Hsame)|exact Hdup].
    + cbn in Hb. injection Hb as ->. congruence.
  - intros idParam b e i target holder Hfind Hname Hb Hin Hid Hsame.
    destruct (list_find_idIs_parsed _ _ _ _ Hfind) as [Hp _].
    destruct (find_sameEmail_Some
                (λ u, negb (bool_decide (idIs (parseInt idParam) u)))
                e (users w) holder Hin Hsame) as [other Hother].
    { rewrite Hp. apply negb_true_iff, bool_decide_eq_false. unfold idIs. congruence. }
    eapply put_duplicate; [exact Hfind|exact Hname|exact Hb| |exact Hother].
    exact (Hwell e holder Hin Hsame).
Qed.

(** C4, as the code has it.  A create request with a string name of
    trimmed length at least 2 and a well-formed address that no user
    holds up to case is answered 201 with a new record: its e-mail is the
    address lowercased and trimmed, its name the name trimmed, its id the
    value of the counter, which is then incremented and was never held by
    a user of this or an earlier state; it is appended at the end.  Its
    [createdAt] is the clock read made when the record is built and its
    [updatedAt] the read made right after it. *)
Theorem post_creates_user w0 w n e :
  reachable w0 -> reaches w0 w ->
  2 <= length (trim n) -> test emailRegex e = true ->
  (∀ u, u ∈ users w -> toLowerCase (email u) ≠ toLowerCase e) ->
  ∃ new w',
    post_api_users (Payload (Some (JStr n)) (Some (JStr e))) w
    = (w', Returned (Response 201 (MessageUser "User created successfully" new))) ∧
    email new = trim (toLowerCase e) ∧ name new = trim n ∧
    id new = nextId w ∧ nextId w' = nextId w + 1 ∧
    (∀ u, u ∈ users w0 -> id u ≠ id new) ∧
    createdAt new = clock (reads w) ∧ updatedAt new = Some (clock (S (reads w))) ∧
    users w' = users w ++ [new].
Proof.
  intros Hw0 Hreach Hn He Hfree. apply reachable_consistent in Hw0.
  destruct (reaches_consistent w0 w Hw0 Hreach) as [_ Hnext].
  assert (Hnone : List.find (sameEmail e) (users w) = None).
  { destruct (List.find (sameEmail e) (users w)) as [u|] eqn:Hfind; [|reflexivity].
    apply List.find_some in Hfind as [Hin Hsame].
    apply list_elem_of_In in Hin. apply sameEmail_lowered in Hsame.
    destruct (Hfree u Hin Hsame). }
  eexists _, _. split; [apply (post_success n e w Hn He Hnone)|].
  cbn. repeat split.
  intros u Hu. destruct Hw0 as [_ Hissued _ _].
  rewrite Forall_fmap, Forall_forall in Hissued. specialize (Hissued u Hu).
  cbn in Hissued. lia.
Qed.


(** ** Timestamps *)

Lemma timed_later w w' u :
  (reads w <= reads w')%nat -> timed w u -> timed w' u.
Proof.
  intros Hr (i & Hi & Hc & Hu). exists i. repeat split; [lia|assumption|].
  destruct (updatedAt u) as [t|]; [|exact I].
  destruct Hu as (j & Hj & Ht). exists j. split; [lia|assumption].
Qed.

Lemma route_timed r w :
  Forall (timed w) (users w) ->
  Forall (timed (route r w).1) (users (route r w).1) ∧
  (reads w <= reads (route r w).1)%nat.
Proof.
  intros Hw. destruct r as [q|idParam|b|idParam b|idParam]; cbn [route].
  - rewrite get_users_state. split; [assumption|lia].
  - rewrite get_user_outcome. split; [assumption|cbn; lia].
  - destruct (post_outcome b w) as [(Hu & _ & Hr & _)|(n & e & -> & Hn & He & Hfree)].
    + rewrite Hu, Hr. split; [|lia].
      eapply Forall_impl; [exact Hw|]. intros u. apply timed_later. lia.
    + rewrite (post_success n e w Hn He Hfree). cbn. split; [|lia].
      apply Forall_app_2.
      * eapply Forall_impl; [exact Hw|]. intros u. apply timed_later. cbn. lia.
      * apply Forall_singleton. exists (reads w). cbn.
        repeat split; [lia|]. exists (S (reads w)). split; [lia|reflexivity].
  - destruct (put_outcome idParam b w) as [[-> _]|(i & target & Hfind & Hname & Hemail)].
    + split; [assumption|lia].
    + rewrite (put_success idParam b w i target Hfind Hname Hemail). cbn.
      split; [|lia]. apply Forall_alter.
      * eapply Forall_impl; [exact Hw|]. intros u. apply timed_later. cbn. lia.
      * intros u _ (k & Hk & Hc & _). exists k. cbn in *.
        repeat split; [assumption|assumption|].
        exists (reads w). split; [lia|reflexivity].
  - rewrite delete_outcome. destruct (parseInt idParam) as [userId|]; cbn.
    2:{ split; [assumption|lia]. }
    destruct (list_find _ _) as [[i u]|]; cbn; (split; [|lia]); [|assumption].
    apply Forall_delete. eapply Forall_impl; [exact Hw|].
    intros v. apply timed_later. cbn. lia.
Qed.

Lemma reachable_timed w : reachable w -> Forall (timed w) (users w).
Proof.
  induction 1 as [|r w Hr IH|w Hr IH].
  - cbn. repeat constructor.
    + exists 0%nat. cbn. repeat split. lia.
    + exists 1%nat. cbn. repeat split. lia.
    + exists 2%nat. cbn. repeat split. lia.
  - rewrite app_state.
    apply (route_timed r (World (users w) (nextId w) (S (reads w)))). cbn.
    eapply Forall_impl; [exact IH|]. intros u. apply timed_later. cbn. lia.
  - cbn. eapply Forall_impl; [exact IH|]. intros u. apply timed_later. cbn. lia.
Qed.

(** The part of C7 that holds: under a clock that never goes back, a
    user of a reachable state that has an [updatedAt] was updated no
    earlier than it was created, and every user that was created or
    updated through the handlers has one (see [post_creates_user] and
    [put_changes_only_given_fields]). *)
Lemma updatedAt_not_before_createdAt w u t :
  (∀ i j, (i <= j)%nat -> clock i <= clock j) ->
  reachable w -> u ∈ users w -> updatedAt u = Some t -> createdAt u <= t.
Proof.
  intros Hmono Hw Hu Ht. apply reachable_timed in Hw.
  rewrite Forall_forall in Hw. destruct (Hw u Hu) as (i & _ & -> & Hupd).
  rewrite Ht in Hupd. destruct Hupd as (j & Hj & ->). apply Hmono. lia.
Qed.

(** ** Listing *)

Lemma get_users_outcome q w :
  get_api_users q w
  = (w, Returned (Response 200
      (UsersPage
         (slice (filteredOf q (users w))
                ((pageOf q - 1) * limitOf q)
                ((pageOf q - 1) * limitOf q + limitOf q))
         {| currentPage := pageOf q;
            totalPages := ceilDiv (Z.of_nat (List.length (filteredOf q (users w)))) (limitOf q);
            totalUsers := Z.of_nat (List.length (filteredOf q (users w)));
            hasNext := (pageOf q - 1) * limitOf q + limitOf q
                       <? Z.of_nat (List.length (filteredOf q (users w)));
            hasPrev := 0 <? (pageOf q - 1) * limitOf q |}))).
Proof. reflexivity. Qed.

(** With a non-negative start and count, [slice] is [take] after [drop]. *)
Lemma slice_window {A} (l : list A) start count :
  0 <= start -> 0 <= count ->
  slice l start (start + count) = take (Z.to_nat count) (drop (Z.to_nat start) l).
Proof.
  intros Hs Hc. unfold slice, relativeIndex.
  replace (start <? 0) with false by lia.
  replace (start + count <? 0) with false by lia.
  destruct (decide (start <= Z.of_nat (List.length l))) as [Hin|Hout].
  - rewrite (Z.min_l start) by lia.
    destruct (decide (start + count <= Z.of_nat (List.length l))) as [Hfit|Hcut].
    + rewrite Z.min_l by lia. f_equal. lia.
    + rewrite Z.min_r by lia.
      rewrite !take_ge; [reflexivity|rewrite length_drop; lia..].
  - rewrite (Z.min_r start) by lia. rewrite Nat2Z.id, drop_all, take_nil.
    rewrite drop_ge by lia. rewrite take_nil. reflexivity.
Qed.

(** C3, as the code has it.  When the effective page and limit are
    both positive (and their product, the end index, is an exact
    integer), the returned slice is the filtered sequence from
    [startIndex] on, cut after [limit] users: it has at most [limit]
    users, it is empty when the page lies beyond the sequence, and
    [hasNext] tells whether a filtered user sits at position
    [startIndex + limit] or beyond.  The state is unchanged. *)
Theorem get_users_page q w :
  1 <= pageOf q -> 1 <= limitOf q -> exactInteger (pageOf q * limitOf q) ->
  let filtered := filteredOf q (users w) in
  let startIndex := (pageOf q - 1) * limitOf q in
  ∃ paginated info,
    get_api_users q w = (w, Returned (Response 200 (UsersPage paginated info))) ∧
    Z.of_nat (List.length paginated) <= limitOf q ∧
    paginated = take (Z.to_nat (limitOf q)) (drop (Z.to_nat startIndex) filtered) ∧
    (∀ i, paginated !! i
          = if decide (Z.of_nat i < limitOf q)
            then filtered !! (Z.to_nat startIndex + i)%nat else None) ∧
    (Z.of_nat (List.length filtered) <= startIndex -> paginated = []) ∧
    (hasNext info = true <->
     ∃ i u, filtered !! i = Some u ∧ startIndex + limitOf q <= Z.of_nat i).
Proof.
  intros Hp Hl _ filtered startIndex.
  assert (Hs : 0 <= startIndex) by (unfold startIndex; nia).
  eexists _, _. split; [apply get_users_outcome|].
  fold filtered startIndex. rewrite (slice_window filtered startIndex (limitOf q)) by lia.
  cbn [hasNext]. repeat split.
  - rewrite length_take. lia.
  - intros i. rewrite lookup_take, lookup_drop.
    destruct (decide (i < Z.to_nat (limitOf q))%nat), (decide (Z.of_nat i < limitOf q));
      try reflexivity; lia.
  - intros Hout. rewrite drop_ge by lia. apply take_nil.
  - intros Hnext. apply Z.ltb_lt in Hnext.
    destruct (lookup_lt_is_Some_2 filtered (Z.to_nat (startIndex + limitOf q)))
      as [u Hu]; [lia|].
    exists (Z.to_nat (startIndex + limitOf q)), u. split; [exact Hu|lia].
  - intros (i & u & Hu & Hi). apply Z.ltb_lt.
    apply lookup_lt_Some in Hu. lia.
Qed.

Lemma orDefault_pretty z d :
  orDefault (parseInt (pretty z)) d = if decide (z = 0) then d else z.
Proof.
  rewrite parseInt_pretty. unfold orDefault.
  destruct (decide (z = 0)) as [->|Hz]; [reflexivity|].
  replace (z =? 0) with false by lia. reflexivity.
Qed.

(** C2, as the code has it.  The effective page is 1 when the [page]
    parameter is absent, when [parseInt] finds no number at its start,
    and when it is the integer 0; any other integer (of those that are
    exact as numbers), negative ones included, is used as it is.  The
    same holds of the limit with 10.  The handler reports the effective
    page as [currentPage] and slices with both. *)
Theorem page_and_limit_defaults q :
  (∀ w, ∃ paginated info,
     get_api_users q w = (w, Returned (Response 200 (UsersPage paginated info))) ∧
     currentPage info = pageOf q ∧
     paginated = slice (filteredOf q (users w))
                       ((pageOf q - 1) * limitOf q)
                       ((pageOf q - 1) * limitOf q + limitOf q)) ∧
  (query_page q = None -> pageOf q = 1) ∧
  (∀ s, query_page q = Some s -> parseInt s = None -> pageOf q = 1) ∧
  (∀ z : Z, exactInteger z -> query_page q = Some (pretty z) ->
     pageOf q = if decide (z = 0) then 1 else z) ∧
  (query_limit q = None -> limitOf q = 10) ∧
  (∀ s, query_limit q = Some s -> parseInt s = None -> limitOf q = 10) ∧
  (∀ z : Z, exactInteger z -> query_limit q = Some (pretty z) ->
     limitOf q = if decide (z = 0) then 10 else z).
Proof.
  unfold pageOf, limitOf, parseIntParam.
  split; [intros w; eexists _, _; split; [apply get_users_outcome|split; reflexivity]|].
  repeat split.
  - intros ->. reflexivity.
  - intros s -> Hs. cbn. rewrite Hs. reflexivity.
  - intros z _ ->. cbn. apply orDefault_pretty.
  - intros ->. reflexivity.
  - intros s -> Hs. cbn. rewrite Hs. reflexivity.
  - intros z _ ->. cbn. apply orDefault_pretty.
Qed.

(** ** Path ids *)

Lemma put_invalid_id idParam b w :
  parseInt idParam = None -> put_api_users_id idParam b w = (w, Returned invalidId).
Proof. intros H. unfold put_api_users_id, put_api_users_id_try. run. rewrite H. reflexivity. Qed.

(** C1, as the code has it.  A path id on which [parseInt] finds no
    number is answered 400 [Invalid user ID format] by the get, update
    and delete handlers, and the state is unchanged.  A path id that
    starts with an integer is taken as that integer, whatever follows
    it: get and delete then answer 404 when no user has that id, and
    otherwise address the first user that has it.  (The integer is
    taken to be exact as a number, see [exactInteger].) *)
Theorem malformed_id_rejected idParam w :
  (parseInt idParam = None ->
     get_api_users_id idParam w = (w, Returned invalidId) ∧
     (∀ b, put_api_users_id idParam b w = (w, Returned invalidId)) ∧
     delete_api_users_id idParam w = (w, Returned invalidId)) ∧
  (∀ userId, parseInt idParam = Some userId -> exactInteger userId ->
     (∀ u, u ∈ users w -> id u ≠ userId) ->
     get_api_users_id idParam w = (w, Returned (Response 404 (Error "User not found"))) ∧
     delete_api_users_id idParam w = (w, Returned (Response 404 (Error "User not found")))) ∧
  (∀ userId i u, parseInt idParam = Some userId ->
     list_find (idIs (Some userId)) (users w) = Some (i, u) ->
     get_api_users_id idParam w = (w, Returned (Response 200 (UserObject u))) ∧
     (delete_api_users_id idParam w).1
     = World (delete i (users w)) (nextId w) (reads w)).
Proof.
  rewrite get_user_outcome, delete_outcome. split; [|split].
  - intros H. rewrite H. repeat split. intros b. apply put_invalid_id, H.
  - intros userId H _ Hnone. rewrite H.
    assert (Hfind : list_find (idIs (Some userId)) (users w) = None).
    { apply list_find_None, Forall_forall. intros u Hu [= Hid].
      exact (Hnone u Hu Hid). }
    rewrite Hfind. split; reflexivity.
  - intros userId i u H Hfind. rewrite H, Hfind. split; reflexivity.
Qed.

(** * Further properties of the code *)

(** ** What the e-mail pattern accepts *)

Lemma append_empty s1 s2 : s1 +:+ s2 = "" -> s1 = "" ∧ s2 = "".
Proof. destruct s1; [intros H; split; [reflexivity|exact H]|discriminate]. Qed.

Lemma nullable_Matches r : nullable r = true <-> Matches r "".
Proof.
  split.
  - induction r; simpl; try discriminate; intros H.
    + constructor.
    + apply andb_true_iff in H as [H1 H2].
      exact (Matches_Cat r1 r2 "" "" (IHr1 H1) (IHr2 H2)).
    + apply orb_true_iff in H as [H|H];
        [apply Matches_Alt_l|apply Matches_Alt_r]; auto.
    + constructor.
  - intros H. remember "" as s eqn:Hs.
    induction H; simpl; try discriminate; try reflexivity.
    + apply append_empty in Hs as [-> ->].
      rewrite IHMatches1, IHMatches2; reflexivity.
    + rewrite IHMatches by assumption. reflexivity.
    + rewrite IHMatches by assumption. apply orb_true_r.
Qed.

Lemma deriv_Matches_1 a r s : Matches (deriv a r) s -> Matches r (String a s).
Proof.
  revert s. induction r; intros s H; simpl in H.
  - inversion H.
  - inversion H.
  - destruct (bool_decide (a = c)) eqn:E; [|inversion H].
    apply bool_decide_eq_true in E as ->. inversion H; subst. constructor.
  - destruct (negb (isWhiteSpace a) && negb (bool_decide (a = c))) eqn:E; [|inversion H].
    apply andb_true_iff in E as [E1 E2]. inversion H; subst.
    constructor; [destruct (isWhiteSpace a); [discriminate|reflexivity]|].
    apply negb_true_iff, bool_decide_eq_false in E2. exact E2.
  - destruct (nullable r1) eqn:N.
    + inversion H as [| | | | ? ? ? HL | ? ? ? HR | |]; subst.
      * inversion HL; subst.
        apply (Matches_Cat r1 r2 (String a s1) s2); auto.
      * exact (Matches_Cat r1 r2 "" (String a s) (proj1 (nullable_Matches r1) N) (IHr2 _ HR)).
    + inversion H; subst. apply (Matches_Cat r1 r2 (String a s1) s2); auto.
  - inversion H; subst; [apply Matches_Alt_l|apply Matches_Alt_r]; auto.
  - inversion H; subst. apply Matches_Star_cons; auto.
Qed.

Lemma deriv_Matches_2 a r s' :
  Matches r s' -> ∀ s, s' = String a s -> Matches (deriv a r) s.
Proof.
  induction 1 as [|c|c b Hw Hb|r1 r2 s1 s2 H1 IH1 H2 IH2|r1 r2 t H IH|r1 r2 t H IH|
                  r|r b s1 s2 H1 IH1 H2 IH2]; intros s Hs; simpl.
  - discriminate.
  - injection Hs as -> <-. rewrite bool_decide_eq_true_2 by reflexivity. constructor.
  - injection Hs as -> <-. rewrite Hw. simpl.
    rewrite bool_decide_eq_false_2 by assumption. constructor.
  - destruct s1 as [|b s1].
    + change (s2 = String a s) in Hs. subst s2.
      apply nullable_Matches in H1. rewrite H1.
      apply Matches_Alt_r. apply IH2. reflexivity.
    + change (String b (s1 +:+ s2) = String a s) in Hs. injection Hs as -> <-.
      assert (Hc : Matches (Cat (deriv a r1) r2) (s1 +:+ s2)).
      { apply Matches_Cat; [apply IH1; reflexivity|assumption]. }
      destruct (nullable r1); [apply Matches_Alt_l|]; exact Hc.
  - apply Matches_Alt_l. apply IH, Hs.
  - apply Matches_Alt_r. apply IH, Hs.
  - discriminate.
  - change (String b (s1 +:+ s2) = String a s) in Hs. injection Hs as -> <-.
    apply Matches_Cat; [apply IH1; reflexivity|assumption].
Qed.

(** [test] decides [Matches]. *)
Lemma test_Matches r s : test r s = true <-> Matches r s.
Proof.
  revert r. induction s as [|a s IH]; intros r.
  - change (test r "") with (nullable r). apply nullable_Matches.
  - change (test r (String a s)) with (test (deriv a r) s).
    rewrite IH. split; [apply deriv_Matches_1|].
    intros H. eapply deriv_Matches_2; [exact H|reflexivity].
Qed.

Lemma Matches_addressChar s :
  Matches (NotSpaceNor "@") s <-> ∃ a, s = String a "" ∧ addressChar a = true.
Proof.
  unfold addressChar. split.
  - intros H. inversion H as [| |c a Hw Ha| | | | |]; subst. exists a.
    split; [reflexivity|]. rewrite Hw. simpl. apply negb_true_iff.
    apply bool_decide_eq_false. exact Ha.
  - intros (a & -> & [Hw Ha]%andb_true_iff). constructor.
    + destruct (isWhiteSpace a); [discriminate|reflexivity].
    + apply negb_true_iff, bool_decide_eq_false in Ha. exact Ha.
Qed.

Lemma Matches_addressChars s :
  Matches (Star (NotSpaceNor "@")) s <-> allChars addressChar s = true.
Proof.
  split.
  - intros H. remember (Star (NotSpaceNor "@")) as r eqn:Hr.
    induction H; try discriminate; [reflexivity|].
    injection Hr as ->.
    apply Matches_addressChar in H as (b & [= -> ->] & Hb).
    change (allChars addressChar (String b s2) = true). simpl.
    rewrite Hb. apply IHMatches2. reflexivity.
  - induction s as [|a s IH]; simpl; [constructor|].
    intros [Ha Hs]%andb_true_iff.
    apply (Matches_Star_cons (NotSpaceNor "@") a "" s); [|apply IH, Hs].
    apply Matches_addressChar. exists a. split; [reflexivity|exact Ha].
Qed.

Lemma Matches_addressPart s :
  Matches (Plus (NotSpaceNor "@")) s <-> addressPart s = true.
Proof.
  unfold Plus, addressPart. split.
  - intros H. inversion H as [| | |r1 r2 s1 s2 H1 H2| | | |]; subst.
    apply Matches_addressChar in H1 as (a & -> & Ha).
    apply Matches_addressChars in H2.
    change (negb (eqb (String a s2) "") && allChars addressChar (String a s2) = true).
    simpl. rewrite Ha, H2. reflexivity.
  - destruct s as [|a s]; [discriminate|]. simpl. intros [Ha Hs]%andb_true_iff.
    apply (Matches_Cat _ _ (String a "") s).
    + apply Matches_addressChar. exists a. split; [reflexivity|exact Ha].
    + apply Matches_addressChars, Hs.
Qed.

(** X1.  The helper [isValidEmail] (lines 28-31) accepts exactly the strings
    [local@domain.tld] whose three parts are non-empty and free of white
    space and of [@]; on a string it never throws and touches nothing. *)
Theorem isValidEmail_shape e w :
  isValidEmail (Some (JStr e)) w = (w, Returned (test emailRegex e)) ∧
  (test emailRegex e = true <->
   ∃ local domain tld,
     e = local +:+ "@" +:+ domain +:+ "." +:+ tld ∧
     addressPart local = true ∧ addressPart domain = true ∧ addressPart tld = true).
Proof.
  split; [reflexivity|]. rewrite test_Matches. unfold emailRegex. split.
  - intros H.
    inversion H as [| | |? ? l s1 Hl H1| | | |]; subst.
    inversion H1 as [| | |? ? at_ s2 Hat H2| | | |]; subst.
    inversion H2 as [| | |? ? d s3 Hd H3| | | |]; subst.
    inversion H3 as [| | |? ? dot t Hdot Ht| | | |]; subst.
    inversion Hat; subst. inversion Hdot; subst.
    exists l, d, t. split; [reflexivity|].
    repeat split; apply Matches_addressPart; assumption.
  - intros (l & d & t & -> & Hl & Hd & Ht).
    apply Matches_Cat; [apply Matches_addressPart, Hl|].
    apply (Matches_Cat _ _ "@"); [constructor|].
    apply Matches_Cat; [apply Matches_addressPart, Hd|].
    apply (Matches_Cat _ _ "."); [constructor|].
    apply Matches_addressPart, Ht.
Qed.

(** ** Filtering the list *)





Lemma toLowerCase_empty s : toLowerCase s = "" <-> s = "".
Proof. destruct s; split; intros H; try reflexivity; discriminate H. Qed.


Lemma filter_sublist {A} (f : A -> bool) (l : list A) : sublist (List.filter f l) l.
Proof.
  induction l as [|x l IH]; simpl; [constructor|].
  destruct (f x); constructor; exact IH.
Qed.

Lemma filterBy_sublist field param l : sublist (filterBy field param l) l.
Proof.
  unfold filterBy. destruct param as [[|c text]|]; try reflexivity.
  apply filter_sublist.
Qed.

Lemma slice_sublist {A} (l : list A) start end_ : sublist (slice l start end_) l.
Proof. unfold slice. etrans; [apply sublist_take|apply sublist_drop]. Qed.


(** ** Pages *)

Lemma ceilDiv_bounds a b :
  0 < b -> (ceilDiv a b - 1) * b < a ∧ a <= ceilDiv a b * b.
Proof.
  intros Hb. unfold ceilDiv.
  pose proof (Z.div_mod (- a) b ltac:(lia)) as Hdiv.
  pose proof (Z.mod_pos_bound (- a) b Hb) as Hmod.
  nia.
Qed.

(** X3.  The page information of [GET /api/users] (lines 82-98) for a
    page and a limit of at least 1: [totalPages] is the least number of
    pages of [limit] users that hold all the filtered users, [hasNext]
    says that the page is before the last one, [hasPrev] that it is after
    the first, every page before the last is full, the last holds the
    rest, and the pages after the last are the empty ones. *)
Theorem pagination_metadata q w :
  1 <= pageOf q -> 1 <= limitOf q -> exactInteger (pageOf q * limitOf q) ->
  let count := Z.of_nat (List.length (filteredOf q (users w))) in
  ∃ paginated info,
    get_api_users q w = (w, Returned (Response 200 (UsersPage paginated info))) ∧
    currentPage info = pageOf q ∧ totalUsers info = count ∧
    (totalPages info - 1) * limitOf q < count ∧ count <= totalPages info * limitOf q ∧
    (hasNext info = true <-> currentPage info < totalPages info) ∧
    (hasPrev info = true <-> 1 < currentPage info) ∧
    (currentPage info < totalPages info ->
       Z.of_nat (List.length paginated) = limitOf q) ∧
    (currentPage info = totalPages info ->
       Z.of_nat (List.length paginated) = count - (totalPages info - 1) * limitOf q) ∧
    (paginated = [] <-> totalPages info < currentPage info).
Proof.
  intros Hpage Hlimit _ count.
  eexists _, _. split; [apply get_users_outcome|]. cbn. fold count.
  destruct (ceilDiv_bounds count (limitOf q) ltac:(lia)) as [Hlow Hhigh].
  set (pages := ceilDiv count (limitOf q)) in *.
  rewrite (slice_window (filteredOf q (users w)) ((pageOf q - 1) * limitOf q) (limitOf q))
    by nia.
  assert (Hlen : Z.of_nat (List.length
             (take (Z.to_nat (limitOf q))
                (drop (Z.to_nat ((pageOf q - 1) * limitOf q)) (filteredOf q (users w)))))
           = Z.min (limitOf q) (Z.max 0 (count - (pageOf q - 1) * limitOf q))).
  { rewrite length_take, length_drop. unfold count. nia. }
  split; [reflexivity|]. split; [reflexivity|].
  split; [exact Hlow|]. split; [exact Hhigh|].
  split; [rewrite Z.ltb_lt; nia|].
  split; [rewrite Z.ltb_lt; nia|].
  split; [intros Hp; rewrite Hlen; nia|].
  split; [intros Hp; rewrite Hlen; nia|].
  rewrite <- length_zero_iff_nil. split; intros H.
  - apply (f_equal Z.of_nat) in H. rewrite Hlen in H. nia.
  - apply Nat2Z.inj. rewrite Hlen. nia.
Qed.

Lemma pages_concat {A} (l : list A) (size pages : nat) :
  (List.length l <= pages * size)%nat ->
  concat ((λ k, take size (drop (k * size) l)) <$> seq 0 pages) = l.
Proof.
  revert l. induction pages as [|pages IH]; intros l Hl.
  - destruct l; [reflexivity|simpl in Hl; lia].
  - transitivity (take size l ++ drop size l); [|apply take_drop].
    cbn [seq fmap list_fmap concat]. f_equal.
    rewrite <- fmap_S_seq, <- list_fmap_compose.
    etrans; [|apply (IH (drop size l)); rewrite length_drop; lia].
    f_equal. apply list_fmap_ext. intros _ k _. cbn.
    rewrite drop_drop. reflexivity.
Qed.

Lemma pageOf_withPage q page : page ≠ 0 -> pageOf (withPage q page) = page.
Proof.
  intros Hpage. unfold pageOf, withPage, parseIntParam. cbn.
  rewrite orDefault_pretty. destruct (decide (page = 0)); [contradiction|reflexivity].
Qed.

Lemma listed_window q w :
  1 <= pageOf q -> 1 <= limitOf q ->
  listed q w
  = take (Z.to_nat (limitOf q))
      (drop (Z.to_nat (pageOf q - 1) * Z.to_nat (limitOf q)) (filteredOf q (users w))).
Proof.
  intros Hpage Hlimit. unfold listed. rewrite get_users_outcome.
  rewrite slice_window by nia. do 2 f_equal. nia.
Qed.

(** X4.  Reading the list page by page (lines 82-98): for a limit of at
    least 1, the answers to the requests for the pages 1, 2, ...,
    [totalPages], put one after the other, are the filtered users, each
    once and in the order of the store. *)
Theorem pages_cover_the_list q w :
  1 <= limitOf q ->
  exactInteger (ceilDiv (Z.of_nat (List.length (filteredOf q (users w)))) (limitOf q)
                * limitOf q) ->
  let pages := ceilDiv (Z.of_nat (List.length (filteredOf q (users w)))) (limitOf q) in
  concat ((λ k, listed (withPage q (Z.of_nat k)) w) <$> seq 1 (Z.to_nat pages))
  = filteredOf q (users w).
Proof.
  intros Hlimit _ pages.
  destruct (ceilDiv_bounds (Z.of_nat (List.length (filteredOf q (users w))))
              (limitOf q) ltac:(lia)) as [Hlow Hhigh].
  fold pages in Hlow, Hhigh.
  etrans; [|apply (pages_concat (filteredOf q (users w)) (Z.to_nat (limitOf q))
                     (Z.to_nat pages)); nia].
  rewrite <- fmap_S_seq, <- list_fmap_compose.
  f_equal. apply list_fmap_ext. intros _ k _. unfold compose. cbv beta.
  rewrite listed_window.
  - rewrite pageOf_withPage by lia. do 3 f_equal. lia.
  - rewrite pageOf_withPage; lia.
  - exact Hlimit.
Qed.

(** ** How the handlers end *)

Lemma post_cases b w : post_case b w (post_api_users b w).
Proof.
  destruct (post_outcome b w) as [_|(n & e & -> & Hn & He & Hfree)].
  2:{ rewrite (post_success n e w Hn He Hfree). eapply post_created; eauto. }
  destruct b as [bname bemail].
  destruct (negb (truthy bname) || negb (truthy bemail)) eqn:Hpresent.
  { replace (post_api_users (Payload bname bemail) w)
      with (w, Returned (validationFailed (Payload bname bemail))).
    - apply post_field_missing. cbn.
      apply orb_true_iff in Hpresent as [H|H]; apply negb_true_iff in H; auto.
    - unfold post_api_users, post_api_users_try, validationFailed. run.
      rewrite Hpresent. reflexivity. }
  apply orb_false_iff in Hpresent as Htruthy.
  destruct Htruthy as [Hn%negb_false_iff He%negb_false_iff].
  destruct (invalidName bname) eqn:Hname.
  { replace (post_api_users (Payload bname bemail) w) with (w, Returned nameTooShort).
    - apply post_name_invalid; assumption.
    - unfold post_api_users, post_api_users_try. run. rewrite Hpresent, Hname.
      reflexivity. }
  destruct bname as [[| | |n| |]|]; try discriminate Hname.
  destruct bemail as [v|]; [|discriminate He].
  destruct (ToString v) as [text|err] eqn:Hstr.
  2:{ replace (post_api_users (Payload (Some (JStr n)) (Some v)) w)
        with (w, Returned internalError).
      - apply post_email_no_string; [assumption..| |left; exists err; exact Hstr].
        intros e [= ->]. discriminate Hstr.
      - unfold post_api_users, post_api_users_try. run. rewrite Hpresent, Hname. cbn.
        rewrite Hstr. reflexivity. }
  destruct (test emailRegex text) eqn:Htest.
  2:{ replace (post_api_users (Payload (Some (JStr n)) (Some v)) w)
        with (w, Returned invalidEmail).
      - eapply post_email_invalid; eauto.
      - unfold post_api_users, post_api_users_try. run. rewrite Hpresent, Hname. cbn.
        rewrite Hstr. cbn. rewrite Htest. reflexivity. }
  assert (Hn2 : 2 <= length (trim n)) by (unfold invalidName in Hname; lia).
  assert (Hstring : (∃ e, v = JStr e) ∨ ¬ ∃ e, v = JStr e).
  { destruct v; eauto; right; intros [e [=]]. }
  destruct Hstring as [[e ->]|Hno].
  - change (Returned e = Returned text) in Hstr. injection Hstr as <-.
    destruct (List.find (sameEmail e) (users w)) as [other|] eqn:Hother.
    + rewrite (post_duplicate n e w other Hn2 Htest Hother).
      eapply post_email_taken; eauto.
    + rewrite (post_success n e w Hn2 Htest Hother). eapply post_created; eauto.
  - assert (Hv : ∀ e, Some v ≠ Some (JStr e)) by (intros e [= ->]; apply Hno; eauto).
    destruct (users w) as [|u us] eqn:Hus.
    + replace (post_api_users (Payload (Some (JStr n)) (Some v)) w)
        with (World (users w) (nextId w + 1) (reads w), Returned internalError).
      * eapply post_email_no_string_empty_store; eauto.
      * destruct v; try (exfalso; apply Hno; eauto; fail);
          unfold post_api_users, post_api_users_try; run; rewrite Hpresent, Hname; cbn;
          rewrite Hstr; cbn; rewrite Htest; run; rewrite Hus; cbn; rewrite ?Hus;
          reflexivity.
    + replace (post_api_users (Payload (Some (JStr n)) (Some v)) w)
        with (w, Returned internalError).
      * apply post_email_no_string; [assumption..|]. right. exists text.
        repeat split; [assumption..|congruence].
      * destruct v; try (exfalso; apply Hno; eauto; fail);
          unfold post_api_users, post_api_users_try; run; rewrite Hpresent, Hname; cbn;
          rewrite Hstr; cbn; rewrite Htest; run; rewrite Hus; cbn; rewrite ?Hus;
          reflexivity.
Qed.

Lemma put_cases idParam b w : put_case idParam b w (put_api_users_id idParam b w).
Proof.
  destruct (parseInt idParam) as [userId|] eqn:Hparse.
  2:{ rewrite (put_invalid_id idParam b w Hparse). apply put_id_invalid, Hparse. }
  destruct (list_find (idIs (parseInt idParam)) (users w)) as [[i target]|] eqn:Hfind.
  2:{ replace (put_api_users_id idParam b w) with (w, Returned notFound).
      - apply put_id_unknown; [congruence|exact Hfind].
      - rewrite Hparse in Hfind.
        unfold put_api_users_id, put_api_users_id_try. run. rewrite Hparse. cbn.
        rewrite Hfind. reflexivity. }
  pose proof Hfind as Hfind'. rewrite Hparse in Hfind'.
  destruct b as [bname bemail].
  destruct (defined bname && invalidName bname) eqn:Hname.
  { replace (put_api_users_id idParam (Payload bname bemail) w)
      with (w, Returned nameTooShort).
    - apply andb_true_iff in Hname as [H1 H2]. eapply put_name_invalid; eauto.
    - unfold put_api_users_id, put_api_users_id_try. run. rewrite Hparse. cbn.
      rewrite Hfind', Hname. reflexivity. }
  assert (Hacc : nameAccepted (Payload bname bemail)).
  { unfold nameAccepted; simpl. destruct bname as [[]|]; try discriminate Hname;
      [right|left; reflexivity].
    eexists; split; [reflexivity|]. unfold invalidName in Hname. simpl in Hname. lia. }
  destruct bemail as [v|].
  2:{ rewrite (put_success idParam _ w i target Hfind Hacc (or_introl eq_refl)).
      eapply put_updated; eauto. left. reflexivity. }
  assert (Hne := list_find_nonempty _ _ _ _ Hfind).
  destruct (ToString v) as [text|err] eqn:Hstr.
  2:{ replace (put_api_users_id idParam (Payload bname (Some v)) w)
        with (w, Thrown (TypeError "res.status.status is not a function") : result response).
      - eapply put_email_no_string; eauto. intros e ->. discriminate Hstr.
      - unfold put_api_users_id, put_api_users_id_try. run. rewrite Hparse. cbn.
        rewrite Hfind', Hname. cbn. rewrite Hstr. reflexivity. }
  destruct (test emailRegex text) eqn:Htest.
  2:{ replace (put_api_users_id idParam (Payload bname (Some v)) w)
        with (w, Returned invalidEmail).
      - eapply put_email_invalid; eauto.
      - unfold put_api_users_id, put_api_users_id_try. run. rewrite Hparse. cbn.
        rewrite Hfind', Hname. cbn. rewrite Hstr. cbn. rewrite Htest. reflexivity. }
  assert (Hstring : (∃ e, v = JStr e) ∨ ∀ e, v ≠ JStr e).
  { destruct v; eauto; right; intros e [=]. }
  destruct Hstring as [[e ->]|Hno].
  - change (Returned e = Returned text) in Hstr. injection Hstr as <-.
    destruct (List.find (λ u, sameEmail e u && negb (bool_decide (idIs (parseInt idParam) u)))
                (users w)) as [other|] eqn:Hother.
    + rewrite (put_duplicate idParam _ e w i target other Hfind Hacc eq_refl Htest Hother).
      eapply put_email_taken; eauto.
    + assert (Hem : emailAccepted (parseInt idParam) (Payload bname (Some (JStr e))) (users w)).
      { right. exists e. repeat split; assumption. }
      rewrite (put_success idParam _ w i target Hfind Hacc Hem).
      eapply put_updated; eauto.
  - replace (put_api_users_id idParam (Payload bname (Some v)) w)
      with (w, Thrown (TypeError "res.status.status is not a function") : result response).
    + eapply put_email_no_string; eauto.
    + destruct v; try (exfalso; eapply Hno; reflexivity);
        unfold put_api_users_id, put_api_users_id_try; run; rewrite Hparse; cbn;
        rewrite Hfind', Hname; cbn; rewrite Hstr; cbn; rewrite Htest; run;
        rewrite findM_throws; (destruct (users w); [congruence|reflexivity]).
Qed.

(** X5.  [POST /api/users] (lines 129-183) always answers, and with 201,
    400, 409 or 500.  It answers 500 only when the e-mail of the body is
    not a string.  Unless it answers 201 it adds and changes no user and
    does not read the clock; it answers 201 exactly when it appends one
    user.  The id counter moves without a user being created only on an
    empty store, and then by one. *)
Theorem create_outcomes b w :
  ∃ w' resp,
    post_api_users b w = (w', Returned resp) ∧
    status resp ∈ [201; 400; 409; 500] ∧
    (status resp = 500 -> ∀ e, body_email b ≠ Some (JStr e)) ∧
    (status resp ≠ 201 -> users w' = users w ∧ reads w' = reads w) ∧
    (status resp ≠ 201 -> nextId w' ≠ nextId w ->
       users w = [] ∧ status resp = 500 ∧ nextId w' = nextId w + 1) ∧
    (status resp = 201 ->
       ∃ new, users w' = users w ++ [new] ∧ nextId w' = nextId w + 1 ∧
              reads w' = S (S (reads w))).
Proof.
  destruct (post_cases b w); eexists _, _; (split; [reflexivity|]); cbn;
    (split; [repeat constructor|]);
    (split; [try discriminate; try (intros _; assumption)|]);
    (split; [try (intros _; split; reflexivity); try congruence|]);
    (split; [try congruence|try discriminate]).
  - intros _ _. repeat split; assumption.
  - intros _. eexists. repeat split.
Qed.

(** X6.  [PUT /api/users/:id] (lines 186-248) answers with 200, 400, 404
    or 409, or throws; it throws only when the e-mail of the body is
    present and not a string, so a body whose e-mail is absent or a
    string is always answered.  Whenever it does not answer 200, and
    also when it throws, the whole state is as before: the handler's
    checks all come before its first assignment. *)
Theorem update_outcomes idParam b w :
  (∀ w' err, put_api_users_id idParam b w = (w', Thrown err) ->
     w' = w ∧ ∃ v, body_email b = Some v ∧ ∀ e, v ≠ JStr e) ∧
  (∀ w' resp, put_api_users_id idParam b w = (w', Returned resp) ->
     status resp ∈ [200; 400; 404; 409] ∧
     (status resp ≠ 200 -> w' = w) ∧
     (status resp = 200 ->
        List.length (users w') = List.length (users w) ∧
        nextId w' = nextId w ∧ reads w' = S (reads w))) ∧
  (body_email b = None ∨ (∃ e, body_email b = Some (JStr e)) ->
     ∃ w' resp, put_api_users_id idParam b w = (w', Returned resp)).
Proof.
  destruct (put_cases idParam b w) as [| | | | |i target v Hfind Hname Hv Hno|].
  all: split; [|split].
  all: try (intros w' err [=]; fail).
  all: try (intros w' resp [= <- <-]; cbn; split; [repeat constructor|]; split;
            [try (intros _; reflexivity); try congruence|try discriminate]).
  all: try (intros _; eexists _, _; reflexivity).
  - intros w' err [= <- _]. split; [reflexivity|]. exists v. split; assumption.
  - intros [He|[e He]]; rewrite He in Hv; [discriminate|].
    injection Hv as <-. exfalso. eapply Hno. reflexivity.
  - intros _. rewrite length_alter. repeat split.
Qed.

(** X7.  A create that fails inside the handler (lines 150-170): when the
    e-mail of the body is not a string but its string conversion passes
    the pattern, as for the array [["a@b.c"]], the answer is 500; on a
    store with users the failure comes from the duplicate check and the
    state is as before, on an empty store it comes after [nextId++], and
    the id is consumed: the state differs by the counter alone. *)
Theorem failed_create_consumes_id n v text w :
  2 <= length (trim n) -> truthy (Some v) = true -> (∀ e, v ≠ JStr e) ->
  ToString v = Returned text -> test emailRegex text = true ->
  post_api_users (Payload (Some (JStr n)) (Some v)) w
  = (if decide (users w = []) then World (users w) (nextId w + 1) (reads w) else w,
     Returned internalError).
Proof.
  intros Hn Hv Hno Hstr Htest.
  assert (Hname : truthy (Some (JStr n)) = true).
  { destruct n; [vm_compute in Hn; congruence|reflexivity]. }
  pose proof (post_cases (Payload (Some (JStr n)) (Some v)) w) as Hcase.
  inversion Hcase; cbn in *.
  - match goal with H : _ ∨ _ |- _ => destruct H; congruence end.
  - match goal with H : invalidName _ = true |- _ => unfold invalidName in H; lia end.
  - congruence.
  - exfalso.
    match goal with H : Payload _ _ = Payload _ (Some (JStr ?e)) |- _ =>
      apply (Hno e); congruence end.
  - match goal with H : _ ∨ _ |- _ => destruct H as [[err Herr]|(? & _ & _ & Hus)] end;
      [congruence|].
    destruct (decide (users w = [])); [contradiction|reflexivity].
  - destruct (decide (users w = [])); [reflexivity|contradiction].
  - exfalso.
    match goal with H : Payload _ _ = Payload _ (Some (JStr ?e)) |- _ =>
      apply (Hno e); congruence end.
Qed.

(** ** The application as a whole *)

Lemma route_outcome r w :
  (∃ w' resp,
     route r w = (w', Returned resp) ∧
     status resp ∈ [200; 201; 400; 404; 409; 500] ∧
     (∀ error details, sent resp ≠ ErrorStack error details) ∧
     (400 <= status resp -> users w' = users w) ∧
     (status resp = 201 -> ∃ b, r = POST_users b) ∧
     (reads w <= reads w')%nat)
  ∨ ∃ idParam b v,
      r = PUT_user idParam b ∧ body_email b = Some v ∧ (∀ e, v ≠ JStr e) ∧
      route r w = (w, Thrown (TypeError "res.status.status is not a function")).
Proof.
  destruct r as [q|idParam|b|idParam b|idParam]; cbn [route].
  - left. eexists _, _. split; [apply get_users_outcome|]. cbn.
    split; [repeat constructor|]. split; [discriminate|].
    split; [reflexivity|]. split; [discriminate|lia].
  - left. eexists _, _. split; [apply get_user_outcome|].
    destruct (parseInt idParam) as [userId|]; [destruct (list_find _ _) as [[? ?]|]|];
      cbn; (split; [repeat constructor|]); (split; [discriminate|]);
      (split; [reflexivity|]); (split; [discriminate|lia]).
  - left. destruct (post_cases b w); eexists _, _; (split; [reflexivity|]); cbn;
      (split; [repeat constructor|]); (split; [discriminate|]);
      (split; [try reflexivity; lia|]); (split; [try discriminate|lia]).
    intros _. eexists. reflexivity.
  - destruct (put_cases idParam b w) as [| | | | |i target v Hfind Hname Hv Hno|].
    6:{ right. exists idParam, b, v. repeat split; assumption. }
    all: left; eexists _, _; (split; [reflexivity|]); cbn;
      (split; [repeat constructor|]); (split; [discriminate|]);
      (split; [try reflexivity; lia|]); (split; [discriminate|lia]).
  - left. rewrite delete_outcome.
    destruct (parseInt idParam) as [userId|]; [destruct (list_find _ _) as [[? ?]|]|];
      eexists _, _; (split; [reflexivity|]); cbn;
      (split; [repeat constructor|]); (split; [discriminate|]);
      (split; [try reflexivity; lia|]); (split; [discriminate|lia]).
Qed.

(** X8.  One request through the application (lines 13-16, 62-280 and
    316-329): the answer has status 200, 201, 400, 404, 409 or 500; an
    answer with an error status, 400 and above, comes with the users
    unchanged, also when the handler threw; 201 is the answer of a create
    only; and every request reads the clock, in the logging middleware. *)
Theorem errors_change_no_user r w :
  status (app r w).2 ∈ [200; 201; 400; 404; 409; 500] ∧
  (400 <= status (app r w).2 -> users (app r w).1 = users w) ∧
  (status (app r w).2 = 201 -> ∃ b, r = POST_users b) ∧
  (reads w < reads (app r w).1)%nat.
Proof.
  rewrite app_route. cbn zeta.
  destruct (route_outcome r (World (users w) (nextId w) (S (reads w))))
    as [(w' & resp & -> & Hstatus & _ & Hsame & Hcreate & Hreads)
       |(idParam & b & v & -> & _ & _ & ->)].
  - cbn in *. repeat split; [assumption..|lia].
  - unfold errorMiddleware. destruct production; cbn;
      (repeat split; [repeat constructor|discriminate|lia]).
Qed.


(** ** Reading back what was written *)

Lemma list_find_id (us : list user) u :
  NoDup (id <$> us) -> u ∈ us -> ∃ i, list_find (idIs (Some (id u))) us = Some (i, u).
Proof.
  intros Hnodup [i Hi]%list_elem_of_lookup_1. exists i.
  apply list_find_Some. split; [exact Hi|]. split; [reflexivity|].
  intros j y Hj Hlt [= Hid].
  assert (j = i); [|lia].
  apply (NoDup_lookup (id <$> us) j i (id u) Hnodup); rewrite list_lookup_fmap.
  - rewrite Hj. cbn. congruence.
  - rewrite Hi. reflexivity.
Qed.

Lemma get_served w u :
  NoDup (id <$> users w) -> u ∈ users w ->
  get_api_users_id (pretty (id u)) w = (w, Returned (Response 200 (UserObject u))).
Proof.
  intros Hnodup Hu. rewrite get_user_outcome, parseInt_pretty.
  destruct (list_find_id (users w) u Hnodup Hu) as [i ->]. reflexivity.
Qed.

Lemma get_answer idParam w :
  (get_api_users_id idParam w).2
  = Returned
      match parseInt idParam with
      | None => invalidId
      | Some userId =>
          match list_find (idIs (Some userId)) (users w) with
          | None => notFound
          | Some (_, user) => Response 200 (UserObject user)
          end
      end.
Proof. rewrite get_user_outcome. reflexivity. Qed.

(** X10.  The list and the single-user route agree (lines 62-126): in a
    state the process can get to, every user of an answer of
    [GET /api/users] is the answer of [GET /api/users/:id] for its id
    written in decimal, and a user answered by [GET /api/users/:id] is a
    user of the store with the id that was asked for. *)
Theorem listed_users_are_served w :
  reachable w ->
  (∀ q u, u ∈ listed q w ->
     get_api_users_id (pretty (id u)) w = (w, Returned (Response 200 (UserObject u)))) ∧
  (∀ idParam u,
     get_api_users_id idParam w = (w, Returned (Response 200 (UserObject u))) ->
     u ∈ users w ∧ parseInt idParam = Some (id u)).
Proof.
  intros Hw. apply reachable_consistent in Hw as [Hnodup _ _ _]. split.
  - intros q u Hu. apply (get_served w u Hnodup).
    unfold listed in Hu. rewrite get_users_outcome in Hu.
    eapply elem_of_sublist; [exact Hu|].
    etrans; [apply slice_sublist|]. unfold filteredOf. etrans; apply filterBy_sublist.
  - intros idParam u. rewrite get_user_outcome.
    destruct (parseInt idParam) as [userId|]; [|discriminate].
    destruct (list_find _ _) as [[i v]|] eqn:Hfind; [|discriminate].
    intros [= ->]. apply list_find_Some in Hfind as (Hi & [= Hid] & _).
    split; [eapply list_elem_of_lookup_2; exact Hi|congruence].
Qed.

(** X11.  Create, then read (lines 107-126 and 164-177): in a state the
    process can get to, the user of a 201 answer is what
    [GET /api/users/:id] answers for its id afterwards, and it is the last
    user of the list; the answers for the other ids are what they were
    before. *)
Theorem created_user_is_served b w w' message new :
  reachable w ->
  post_api_users b w = (w', Returned (Response 201 (MessageUser message new))) ->
  get_api_users_id (pretty (id new)) w'
    = (w', Returned (Response 200 (UserObject new))) ∧
  last (users w') = Some new ∧
  (∀ u, u ∈ users w -> id u ≠ id new) ∧
  (∀ idParam, parseInt idParam ≠ Some (id new) ->
     (get_api_users_id idParam w').2 = (get_api_users_id idParam w).2).
Proof.
  intros Hw Hpost. apply reachable_consistent in Hw.
  destruct (post_outcome b w) as [(_ & _ & _ & Hno)|(n & e & -> & Hn & He & Hfree)].
  { rewrite Hpost in Hno. destruct (Hno _ eq_refl). reflexivity. }
  pose proof (consistent_created w n e He Hfree Hw) as [Hnodup _ _ _].
  rewrite (post_success n e w Hn He Hfree) in Hpost. injection Hpost as <- _ <-.
  destruct Hw as [_ Hissued _ _]. rewrite Forall_fmap, Forall_forall in Hissued.
  split; [|split; [|split]].
  - apply get_served; [exact Hnodup|]. cbn. apply elem_of_app. right. constructor.
  - cbn. apply last_snoc.
  - intros u Hu. specialize (Hissued u Hu). cbn in *. lia.
  - intros idParam Hother. rewrite !get_answer.
    destruct (parseInt idParam) as [userId|]; [|reflexivity]. cbn [users].
    destruct (list_find (idIs (Some userId)) (users w)) as [[i u]|] eqn:Hfind.
    + rewrite (list_find_app_l _ _ _ _ _ Hfind). reflexivity.
    + rewrite (list_find_app_r _ _ _ Hfind). cbn.
      destruct (decide (idIs (Some userId) (createdUser w n e))) as [Hid|Hid];
        [|reflexivity].
      destruct Hother. rewrite <- Hid. reflexivity.
Qed.

Lemma list_find_alter_other (k : option Z) (f : user -> user) i (us : list user) :
  (∀ u, id (f u) = id u) -> (∀ u, us !! i = Some u -> ¬ idIs k u) ->
  list_find (idIs k) (alter f i us) = list_find (idIs k) us.
Proof.
  intros Hf. revert i. induction us as [|x us IH]; intros i Hi; [reflexivity|].
  destruct i as [|i]; cbn.
  - assert (Hx : ¬ idIs k x) by (apply Hi; reflexivity).
    destruct (decide (idIs k (f x))) as [H|_].
    { destruct Hx. unfold idIs in *. rewrite <- Hf. exact H. }
    destruct (decide (idIs k x)); [contradiction|reflexivity].
  - destruct (decide (idIs k x)); [reflexivity|].
    rewrite (IH i); [reflexivity|]. intros u Hu. apply Hi. exact Hu.
Qed.

Lemma list_find_alter_same (k : option Z) (f : user -> user) i (us : list user) u :
  (∀ u, id (f u) = id u) -> list_find (idIs k) us = Some (i, u) ->
  list_find (idIs k) (alter f i us) = Some (i, f u).
Proof.
  intros Hf (Hi & Hk & Hfirst)%list_find_Some. apply list_find_Some.
  split; [rewrite list_lookup_alter_eq, Hi; reflexivity|].
  split; [unfold idIs in *; rewrite Hf; exact Hk|].
  intros j y Hj Hlt. rewrite list_lookup_alter_ne in Hj by lia.
  apply (Hfirst j y Hj Hlt).
Qed.

(** X12.  Update, then read (lines 107-126 and 229-242): the user of a
    200 answer of [PUT /api/users/:id] is what [GET /api/users/:id]
    answers for the same path id afterwards, and the answers for the path
    ids that parse to another number are what they were before. *)
Theorem updated_user_is_served idParam b w w' message new :
  put_api_users_id idParam b w = (w', Returned (Response 200 (MessageUser message new))) ->
  get_api_users_id idParam w' = (w', Returned (Response 200 (UserObject new))) ∧
  (∀ other, parseInt other ≠ parseInt idParam ->
     (get_api_users_id other w').2 = (get_api_users_id other w).2).
Proof.
  intros Hput.
  destruct (put_outcome idParam b w) as [[_ Hno]|(i & target & Hfind & Hname & Hemail)].
  { rewrite Hput in Hno. destruct (Hno _ eq_refl) as [H|[H|H]]; discriminate H. }
  rewrite (put_success idParam b w i target Hfind Hname Hemail) in Hput.
  injection Hput as <- _ <-.
  pose proof (list_find_idIs_parsed idParam (users w) i target Hfind) as [Hparse Hi].
  assert (Hkeep : ∀ u, id (updatedUser b (clock (reads w)) u) = id u) by reflexivity.
  split.
  - rewrite get_user_outcome, Hparse. cbn [users].
    rewrite Hparse in Hfind.
    rewrite (list_find_alter_same _ _ _ _ _ Hkeep Hfind). reflexivity.
  - intros other Hother. rewrite !get_answer.
    destruct (parseInt other) as [userId|]; [|reflexivity]. cbn [users].
    rewrite list_find_alter_other; [reflexivity|exact Hkeep|].
    intros u Hu [= Hid]. rewrite Hi in Hu. injection Hu as <-.
    apply Hother. rewrite Hparse. congruence.
Qed.

Lemma put_not_found idParam b w :
  parseInt idParam ≠ None ->
  list_find (idIs (parseInt idParam)) (users w) = None ->
  put_api_users_id idParam b w = (w, Returned notFound).
Proof.
  intros Hparse Hfind.
  pose proof (put_cases idParam b w) as Hcase.
  inversion Hcase; try congruence.
Qed.

Lemma list_find_delete_other (k : option Z) i (us : list user) :
  (∀ u, us !! i = Some u -> ¬ idIs k u) ->
  snd <$> list_find (idIs k) (delete i us) = snd <$> list_find (idIs k) us.
Proof.
  revert i. induction us as [|x us IH]; intros i Hi; [reflexivity|].
  destruct i as [|i]; cbn.
  - assert (Hx : ¬ idIs k x) by (apply Hi; reflexivity).
    destruct (decide (idIs k x)); [contradiction|].
    destruct (list_find (idIs k) us) as [[j u]|]; reflexivity.
  - destruct (decide (idIs k x)); [reflexivity|].
    specialize (IH i Hi).
    destruct (list_find (idIs k) (delete i us)) as [[j u]|],
             (list_find (idIs k) us) as [[j' u']|]; cbn in *; congruence.
Qed.

Lemma lookup_delete_inv {A} (l : list A) i j x :
  delete i l !! j = Some x -> ∃ j', j' ≠ i ∧ l !! j' = Some x.
Proof.
  intros Hj. destruct (decide (j < i)%nat) as [Hlt|Hge].
  - rewrite list_lookup_delete_lt in Hj by exact Hlt. exists j. split; [lia|exact Hj].
  - rewrite list_lookup_delete_ge in Hj by lia. exists (S j). split; [lia|exact Hj].
Qed.

Lemma list_find_deleted (us : list user) i u :
  NoDup (id <$> us) -> us !! i = Some u ->
  list_find (idIs (Some (id u))) (delete i us) = None.
Proof.
  intros Hnodup Hi. apply list_find_None, Forall_forall.
  intros v [j Hj]%list_elem_of_lookup_1 [= Hid].
  apply lookup_delete_inv in Hj as (j' & Hne & Hj').
  apply Hne. apply (NoDup_lookup (id <$> us) j' i (id u) Hnodup); rewrite list_lookup_fmap.
  - rewrite Hj'. cbn. congruence.
  - rewrite Hi. reflexivity.
Qed.

Lemma elem_of_delete (us : list user) i u v :
  NoDup (id <$> us) -> us !! i = Some u ->
  v ∈ delete i us <-> v ∈ us ∧ id v ≠ id u.
Proof.
  intros Hnodup Hi. split.
  - intros Hv. split; [eapply list_elem_of_delete_inv; exact Hv|].
    intros Hid. pose proof (list_find_deleted us i u Hnodup Hi) as Hnone.
    rewrite list_find_None, Forall_forall in Hnone.
    apply (Hnone v Hv). unfold idIs. congruence.
  - intros [[j Hj]%list_elem_of_lookup_1 Hid].
    assert (j ≠ i) by (intros ->; congruence).
    destruct (decide (j < i)%nat).
    + apply (list_elem_of_lookup_2 _ j). rewrite list_lookup_delete_lt by lia. exact Hj.
    + apply (list_elem_of_lookup_2 _ (j - 1)). rewrite list_lookup_delete_ge by lia.
      replace (S (j - 1)) with j by lia. exact Hj.
Qed.

(** X13.  Delete, then read (lines 251-280): in a state the process can
    get to, a 200 answer of [DELETE /api/users/:id] names the id, the
    name and the address of a user that had the id asked for; afterwards
    the store holds the other users, in their order, and the id counter
    is as before, so that the id is not given again; the same path id is
    answered 404 by the three routes that take one, whatever the body of
    the update; and the answers for the path ids that parse to another
    number are what they were before. *)
Theorem deleted_user_is_gone idParam w w' resp :
  reachable w ->
  delete_api_users_id idParam w = (w', Returned resp) -> status resp = 200 ->
  ∃ i u,
    users w !! i = Some u ∧ parseInt idParam = Some (id u) ∧
    resp = Response 200 (MessageDeleted "User deleted successfully" (id u) (name u) (email u)) ∧
    users w' = delete i (users w) ∧ sublist (users w') (users w) ∧
    nextId w' = nextId w ∧ id u < nextId w' ∧
    (∀ v, v ∈ users w' <-> v ∈ users w ∧ id v ≠ id u) ∧
    get_api_users_id idParam w' = (w', Returned notFound) ∧
    (∀ b, put_api_users_id idParam b w' = (w', Returned notFound)) ∧
    delete_api_users_id idParam w' = (w', Returned notFound) ∧
    (∀ other, parseInt other ≠ parseInt idParam ->
       (get_api_users_id other w').2 = (get_api_users_id other w).2).
Proof.
  intros Hw Hdelete Hstatus. apply reachable_consistent in Hw as [Hnodup Hissued _ _].
  rewrite delete_outcome in Hdelete.
  destruct (parseInt idParam) as [userId|] eqn:Hparse;
    [|injection Hdelete as _ <-; discriminate Hstatus].
  destruct (list_find (idIs (Some userId)) (users w)) as [[i u]|] eqn:Hfind;
    [|injection Hdelete as _ <-; discriminate Hstatus].
  injection Hdelete as <- <-.
  apply list_find_Some in Hfind as (Hi & [= Hid] & _). subst userId.
  pose proof (list_find_deleted (users w) i u Hnodup Hi) as Hgone.
  exists i, u. cbn [users nextId].
  split; [exact Hi|]. split; [reflexivity|]. split; [reflexivity|].
  split; [reflexivity|]. split; [apply sublist_delete|]. split; [reflexivity|].
  split.
  { rewrite Forall_fmap, Forall_forall in Hissued.
    apply (Hissued u). eapply list_elem_of_lookup_2. exact Hi. }
  split; [intros v; apply elem_of_delete; assumption|].
  split; [rewrite get_user_outcome, Hparse; cbn [users]; rewrite Hgone; reflexivity|].
  split.
  { intros b. apply put_not_found; rewrite Hparse; [discriminate|exact Hgone]. }
  split; [rewrite delete_outcome, Hparse; cbn [users]; rewrite Hgone; reflexivity|].
  intros other Hother. rewrite !get_answer.
  destruct (parseInt other) as [userId|]; [|reflexivity]. cbn [users].
  pose proof (list_find_delete_other (Some userId) i (users w)) as Hsame.
  destruct (list_find (idIs (Some userId)) (delete i (users w))) as [[j v]|],
           (list_find (idIs (Some userId)) (users w)) as [[j' v']|];
    cbn in Hsame; try reflexivity.
  all: assert (Hok : ∀ u0, users w !! i = Some u0 -> ¬ idIs (Some userId) u0)
         by (intros u0 Hu0 [= Hid0]; rewrite Hi in Hu0; injection Hu0 as <-;
             apply Hother; congruence).
  all: specialize (Hsame Hok); congruence.
Qed.

(** ** What the store holds *)

Lemma trimEnd_idemp s : trimEnd (trimEnd s) = trimEnd s.
Proof.
  induction s as [|c s IH]; [reflexivity|]. simpl.
  destruct (trimEnd s) as [|a t] eqn:E.
  - destruct (isWhiteSpace c) eqn:W; simpl; [reflexivity|]. rewrite W. reflexivity.
  - change (trimEnd (String c (String a t)))
      with (match trimEnd (String a t) with
            | "" => if isWhiteSpace c then "" else String c ""
            | t' => String c t'
            end).
    rewrite IH. reflexivity.
Qed.

Lemma trimStart_head s :
  trimStart s = "" ∨ ∃ c t, trimStart s = String c t ∧ isWhiteSpace c = false.
Proof.
  induction s as [|c s IH]; [left; reflexivity|]. simpl.
  destruct (isWhiteSpace c) eqn:W; [exact IH|]. right. exists c, s. split; [reflexivity|exact W].
Qed.

Lemma trimEnd_head c t :
  isWhiteSpace c = false -> ∃ t', trimEnd (String c t) = String c t'.
Proof.
  intros W. simpl. destruct (trimEnd t); [rewrite W|]; eexists; reflexivity.
Qed.

Lemma trim_idemp s : trim (trim s) = trim s.
Proof.
  unfold trim. destruct (trimStart_head s) as [->|(c & t & -> & W)]; [reflexivity|].
  destruct (trimEnd_head c t W) as [t' Ht]. rewrite Ht.
  change (trimStart (String c t')) with (if isWhiteSpace c then trimStart t' else String c t').
  rewrite W, <- Ht. apply trimEnd_idemp.
Qed.

(** What one request does to the store: nothing, or it appends a user
    made by the create handler, or it updates one user in place, or it
    removes one. *)
Lemma route_step r w :
  (users (route r w).1 = users w ∧ nextId w <= nextId (route r w).1)
  ∨ (∃ n e, 2 <= length (trim n) ∧ test emailRegex e = true ∧
            List.find (sameEmail e) (users w) = None ∧
            users (route r w).1 = users w ++ [createdUser w n e] ∧
            nextId (route r w).1 = nextId w + 1)
  ∨ (∃ b i target,
       users w !! i = Some target ∧ nameAccepted b ∧
       emailAccepted (Some (id target)) b (users w) ∧
       users (route r w).1 = alter (updatedUser b (clock (reads w))) i (users w) ∧
       nextId (route r w).1 = nextId w)
  ∨ (∃ i u, users w !! i = Some u ∧
            users (route r w).1 = delete i (users w) ∧
            nextId (route r w).1 = nextId w).
Proof.
  destruct r as [q|idParam|b|idParam b|idParam]; cbn [route].
  - left. rewrite get_users_state. split; [reflexivity|lia].
  - left. rewrite get_user_outcome. split; [reflexivity|cbn; lia].
  - destruct (post_outcome b w) as [(Hu & Hn & _ & _)|(n & e & -> & Hn & He & Hfree)].
    + left. split; assumption.
    + right. left. exists n, e. rewrite (post_success n e w Hn He Hfree).
      repeat split; assumption.
  - destruct (put_outcome idParam b w) as [[-> _]|(i & target & Hfind & Hname & Hemail)].
    + left. split; [reflexivity|lia].
    + right. right. left. exists b, i, target.
      rewrite (put_success idParam b w i target Hfind Hname Hemail).
      destruct (list_find_idIs_parsed idParam (users w) i target Hfind) as [Hparse Hi].
      rewrite Hparse in Hemail. repeat split; assumption.
  - rewrite delete_outcome. destruct (parseInt idParam) as [userId|].
    2:{ left. split; [reflexivity|cbn; lia]. }
    destruct (list_find _ _) as [[i u]|] eqn:Hfind.
    2:{ left. split; [reflexivity|cbn; lia]. }
    right. right. right. exists i, u. apply list_find_Some in Hfind as [Hi _].
    repeat split. exact Hi.
Qed.

Lemma wellStored_created w n e :
  1 <= nextId w -> 2 <= length (trim n) -> test emailRegex e = true ->
  wellStored (createdUser w n e).
Proof.
  intros Hid Hn He. split; cbn.
  - exact Hid.
  - apply trim_idemp.
  - exact Hn.
  - rewrite (valid_email_stored e He). apply toLowerCase_idemp.
  - rewrite (valid_email_stored e He), valid_email_toLowerCase. exact He.
Qed.

Lemma wellStored_updated userId b t us u :
  nameAccepted b -> emailAccepted userId b us -> wellStored u ->
  wellStored (updatedUser b t u).
Proof.
  intros Hname Hemail [H1 H2 H3 H4 H5]. unfold updatedUser, newName, newEmail.
  destruct Hname as [->|(n & -> & Hn)], Hemail as [->|(e & -> & He & _)];
    split; cbn; try assumption; try apply trim_idemp.
  all: try (rewrite (valid_email_stored e He); apply toLowerCase_idemp).
  all: rewrite (valid_email_stored e He), valid_email_toLowerCase; exact He.
Qed.

Lemma ascending_snoc l x : ascending l -> Forall (λ y, y < x) l -> ascending (l ++ [x]).
Proof.
  intros Hl Hx i j a b Hi Hj Hlt.
  apply lookup_app_Some in Hj as [Hj|[Hlen Hj]].
  - rewrite lookup_app_l in Hi by (apply lookup_lt_Some in Hj; lia).
    apply (Hl i j a b Hi Hj Hlt).
  - destruct (j - List.length l)%nat as [|k] eqn:Hk; [|discriminate Hj].
    injection Hj as <-.
    rewrite lookup_app_l in Hi by lia.
    rewrite Forall_forall in Hx. apply Hx. eapply list_elem_of_lookup_2. exact Hi.
Qed.

Lemma ascending_delete l k : ascending l -> ascending (delete k l).
Proof.
  intros Hl i j a b Hi Hj Hlt.
  destruct (decide (i < k)%nat), (decide (j < k)%nat).
  - rewrite list_lookup_delete_lt in Hi, Hj by lia. apply (Hl i j a b Hi Hj Hlt).
  - rewrite list_lookup_delete_lt in Hi by lia. rewrite list_lookup_delete_ge in Hj by lia.
    apply (Hl i (S j) a b Hi Hj). lia.
  - lia.
  - rewrite list_lookup_delete_ge in Hi, Hj by lia. apply (Hl (S i) (S j) a b Hi Hj). lia.
Qed.

Lemma initial_wellStored : Forall wellStored (users initial).
Proof. repeat constructor; cbn; try lia; vm_compute; congruence. Qed.

Lemma initial_ascending : ascending (id <$> users initial).
Proof.
  intros i j a b Hi Hj Hlt. cbn in Hi, Hj.
  destruct i as [|[|[|i]]], j as [|[|[|j]]]; try lia; try discriminate Hj;
    try discriminate Hi; injection Hi as <-; injection Hj as <-; lia.
Qed.

Lemma reachable_store w :
  reachable w ->
  Forall wellStored (users w) ∧ ascending (id <$> users w) ∧
  Forall (λ u, id u < nextId w) (users w) ∧ 4 <= nextId w.
Proof.
  induction 1 as [|r w Hr IH|w Hr IH].
  - split; [apply initial_wellStored|]. split; [apply initial_ascending|].
    split; [repeat constructor|reflexivity].
  - destruct IH as (Hwell & Hasc & Hbelow & Hnext). rewrite app_state.
    destruct (route_step r (World (users w) (nextId w) (S (reads w))))
      as [[-> Hle]
         |[(n & e & Hn & He & _ & -> & ->)
          |[(b & i & target & Hi & Hname & Hemail & -> & ->)
           |(i & u & Hi & -> & ->)]]]; cbn [users nextId reads] in *.
    + split; [exact Hwell|]. split; [exact Hasc|]. split; [|lia].
      eapply Forall_impl; [exact Hbelow|]. cbn. intros; lia.
    + split; [|split; [|split]].
      * apply Forall_app_2; [exact Hwell|]. apply Forall_singleton.
        apply wellStored_created; [cbn; lia|assumption..].
      * rewrite fmap_app. apply ascending_snoc; [exact Hasc|].
        rewrite Forall_fmap. exact Hbelow.
      * apply Forall_app_2.
        -- eapply Forall_impl; [exact Hbelow|]. cbn. intros; lia.
        -- apply Forall_singleton. cbn. lia.
      * lia.
    + split; [|split; [|split]].
      * apply Forall_alter; [exact Hwell|]. intros u _.
        eapply wellStored_updated; eassumption.
      * rewrite ids_altered. exact Hasc.
      * apply Forall_alter; [exact Hbelow|]. intros u _ Hu. exact Hu.
      * exact Hnext.
    + split; [apply Forall_delete, Hwell|].
      split; [rewrite list_fmap_delete; apply ascending_delete, Hasc|].
      split; [apply Forall_delete, Hbelow|exact Hnext].
  - exact IH.
Qed.

(** X14.  What the store holds in every state the process can get to
    (lines 19-25, 164-172, 229-237 and 265): the ids are positive, below
    the id counter, and ascending along the list, so that the list is in
    the order of creation; every name is trimmed and has two characters
    or more; every address is in lower case and matches the pattern of
    [isValidEmail]. *)
Theorem stored_users_are_well_formed w :
  reachable w ->
  (∀ u, u ∈ users w ->
     1 <= id u ∧ id u < nextId w ∧
     trim (name u) = name u ∧ 2 <= length (name u) ∧
     toLowerCase (email u) = email u ∧ test emailRegex (email u) = true) ∧
  (∀ i j u v, users w !! i = Some u -> users w !! j = Some v ->
     (i < j)%nat -> id u < id v).
Proof.
  intros (Hwell & Hasc & Hbelow & _)%reachable_store. split.
  - intros u Hu. rewrite Forall_forall in Hwell, Hbelow.
    destruct (Hwell u Hu) as [H1 H2 H3 H4 H5]. specialize (Hbelow u Hu). cbn in Hbelow.
    repeat split; assumption.
  - intros i j u v Hi Hj Hlt. apply (Hasc i j); [| |exact Hlt];
      rewrite list_lookup_fmap; [rewrite Hi|rewrite Hj]; reflexivity.
Qed.

Lemma find_None_forall {A} (f : A -> bool) (l : list A) :
  (∀ x, x ∈ l -> f x = false) -> List.find f l = None.
Proof.
  induction l as [|x l IH]; intros H; [reflexivity|]. simpl.
  rewrite (H x) by constructor. apply IH. intros y Hy. apply H. constructor. exact Hy.
Qed.

(** X15.  Saving a user as it is (lines 186-248): in a state the process
    can get to, an update of a stored user with its own name and its own
    address is accepted, the address of the user itself being no
    duplicate (line 220), and it changes nothing but [updatedAt]. *)
Theorem resaving_a_user w u :
  reachable w -> u ∈ users w ->
  ∃ i, users w !! i = Some u ∧
    put_api_users_id (pretty (id u))
      (Payload (Some (JStr (name u))) (Some (JStr (email u)))) w
    = (World (<[i := setUpdatedAt (clock (reads w)) u]> (users w))
             (nextId w) (S (reads w)),
       Returned (Response 200 (MessageUser "User updated successfully"
                                 (setUpdatedAt (clock (reads w)) u)))).
Proof.
  intros Hw Hu.
  pose proof (reachable_store w Hw) as (Hwell & _).
  pose proof (reachable_consistent w Hw) as [Hnodup _ Hemails _].
  rewrite Forall_forall in Hwell. destruct (Hwell u Hu) as [_ Htrim Hlong Hlower Hvalid].
  destruct (list_find_id (users w) u Hnodup Hu) as [i Hfind].
  pose proof Hfind as [Hi _]%list_find_Some.
  exists i. split; [exact Hi|].
  set (b := Payload (Some (JStr (name u))) (Some (JStr (email u)))).
  assert (Hname : nameAccepted b).
  { right. exists (name u). split; [reflexivity|]. rewrite Htrim. exact Hlong. }
  assert (Hemail : emailAccepted (parseInt (pretty (id u))) b (users w)).
  { right. exists (email u). split; [reflexivity|]. split; [exact Hvalid|].
    rewrite parseInt_pretty. apply find_None_forall. intros x [j Hj]%list_elem_of_lookup_1.
    destruct (sameEmail (email u) x) eqn:Hsame; [|reflexivity]. cbn.
    apply sameEmail_lowered in Hsame.
    assert (j = i).
    { apply (NoDup_lookup (lowered <$> users w) j i (lowered u) Hemails);
        rewrite list_lookup_fmap; [rewrite Hj|rewrite Hi]; cbn; [|reflexivity].
      f_equal. exact Hsame. }
    subst j. rewrite Hi in Hj. injection Hj as <-.
    rewrite bool_decide_eq_true_2; reflexivity. }
  rewrite <- (parseInt_pretty (id u)) in Hfind.
  rewrite (put_success (pretty (id u)) b w i u Hfind Hname Hemail).
  assert (Hsame : updatedUser b (clock (reads w)) u = setUpdatedAt (clock (reads w)) u).
  { unfold updatedUser, setUpdatedAt, newName, newEmail. cbn.
    rewrite Htrim, (valid_email_stored _ Hvalid), Hlower. reflexivity. }
  rewrite Hsame, list_insert_alter. do 2 f_equal.
  apply list_alter_ext; [|reflexivity]. intros x Hx. rewrite Hi in Hx.
  injection Hx as <-. exact Hsame.
Qed.

(** ** Statistics *)

Lemma length_users_route r w :
  let answer := route r w in
  Z.of_nat (List.length (users answer.1))
  = Z.of_nat (List.length (users w))
    + match r, answer.2 with
      | POST_users _, Returned (Response 201 _) => 1
      | DELETE_user _, Returned (Response 200 _) => -1
      | _, _ => 0
      end.
Proof.
  destruct r as [q|idParam|b|idParam b|idParam]; cbn [route]; cbv zeta.
  - rewrite get_users_outcome. cbn. lia.
  - rewrite get_user_outcome. cbn. lia.
  - destruct (post_cases b w); cbn; try lia. rewrite length_app. cbn. lia.
  - destruct (put_cases idParam b w); cbn; try lia. rewrite length_alter. lia.
  - rewrite delete_outcome. destruct (parseInt idParam) as [userId|]; [|cbn; lia].
    destruct (list_find _ _) as [[i u]|] eqn:Hfind; cbn; [|lia].
    apply list_find_Some in Hfind as [Hi _].
    rewrite length_delete by (rewrite Hi; eauto).
    apply lookup_lt_Some in Hi. lia.
Qed.

(** X16.  [GET /api/stats] (lines 283-290) does not throw and touches
    neither the users nor the id counter; it reads the clock once, for
    its timestamp.  Its [totalUsers] is the number of users of the store,
    which is the [totalUsers] of the list without filters; a request
    through the application changes it by one upwards exactly when the
    answer is 201 (a create), by one downwards exactly when a delete is
    answered 200, and not otherwise. *)
Theorem statistics_follow_the_store uptime w :
  ∃ stats,
    get_api_stats uptime w
      = (World (users w) (nextId w) (S (reads w)), Returned stats) ∧
    stats_totalUsers stats = Z.of_nat (List.length (users w)) ∧
    stats_uptime stats = uptime ∧ stats_timestamp stats = clock (reads w) ∧
    (∀ q paginated info,
       query_name q = None -> query_email q = None ->
       get_api_users q w = (w, Returned (Response 200 (UsersPage paginated info))) ->
       totalUsers info = stats_totalUsers stats) ∧
    (∀ r uptime' stats',
       (get_api_stats uptime' (app r w).1).2 = Returned stats' ->
       stats_totalUsers stats' = stats_totalUsers stats + countChange r (app r w).2).
Proof.
  eexists. split; [reflexivity|]. cbn [stats_totalUsers stats_uptime stats_timestamp].
  split; [reflexivity|]. split; [reflexivity|]. split; [reflexivity|]. split.
  - intros q paginated info Hname Hemail. rewrite get_users_outcome.
    intros [= _ <-]. cbn. unfold filteredOf. rewrite Hname, Hemail. reflexivity.
  - intros r uptime' stats' [= <-]. cbn [stats_totalUsers]. rewrite app_route. cbv zeta.
    pose proof (length_users_route r (World (users w) (nextId w) (S (reads w)))) as Hlen.
    cbv zeta in Hlen. cbn [users] in Hlen.
    destruct (route r _) as [w' [resp|err]]; cbn [fst snd] in *.
    + rewrite Hlen. f_equal. unfold countChange. destruct r, resp as [[| |] ?]; reflexivity.
    + rewrite Hlen. unfold countChange, errorMiddleware.
      destruct err, production, r; reflexivity.
Qed.

(** ** The order of the checks *)

Lemma nameAccepted_checked b :
  nameAccepted b -> defined (body_name b) = true -> invalidName (body_name b) = false.
Proof.
  intros [->|(n & -> & Hn)] Hdef; [discriminate Hdef|]. unfold invalidName. lia.
Qed.

(** X17.  The checks of [PUT /api/users/:id] come in the order of lines
    188-227.  A path id that no user has is answered 404 whatever the
    body is.  For the id of a user, a name that is present and is not a
    string of two characters or more after trimming is answered with
    the message about the name whatever the e-mail is, [null] and the
    values of other types included.  When the name passes, an e-mail
    whose string conversion does not match the pattern is answered with
    the message about the address, as [null] and every boolean are.  In
    none of these cases does the state change. *)
Theorem update_checks_in_order idParam b w :
  (∀ userId, parseInt idParam = Some userId ->
     (∀ u, u ∈ users w -> id u ≠ userId) ->
     put_api_users_id idParam b w = (w, Returned notFound)) ∧
  (∀ i target v,
     list_find (idIs (parseInt idParam)) (users w) = Some (i, target) ->
     body_name b = Some v -> (∀ n, v = JStr n -> length (trim n) < 2) ->
     put_api_users_id idParam b w = (w, Returned nameTooShort)) ∧
  (∀ i target v text,
     list_find (idIs (parseInt idParam)) (users w) = Some (i, target) ->
     nameAccepted b -> body_email b = Some v ->
     ToString v = Returned text -> test emailRegex text = false ->
     put_api_users_id idParam b w = (w, Returned invalidEmail)) ∧
  (∀ i target flag,
     list_find (idIs (parseInt idParam)) (users w) = Some (i, target) ->
     nameAccepted b -> body_email b = Some JNull ∨ body_email b = Some (JBool flag) ->
     put_api_users_id idParam b w = (w, Returned invalidEmail)).
Proof.
  assert (Hemail : ∀ i target v text,
     list_find (idIs (parseInt idParam)) (users w) = Some (i, target) ->
     nameAccepted b -> body_email b = Some v ->
     ToString v = Returned text -> test emailRegex text = false ->
     put_api_users_id idParam b w = (w, Returned invalidEmail)).
  { intros i target v text Hfind Hname Hv Hstr Htest.
    pose proof (put_cases idParam b w) as Hcase.
    inversion Hcase as [Hparse|_ Hnone|? ? _ Hdef Hinv|
                        |? ? e ? _ _ He Hvalid|? ? v' _ _ Hv' _ Hwhy|? ? _ _ Hacc];
      try reflexivity.
    - apply list_find_idIs_parsed in Hfind as [Hsome _]. congruence.
    - congruence.
    - rewrite (nameAccepted_checked b Hname Hdef) in Hinv. discriminate Hinv.
    - rewrite He in Hv. injection Hv as <-.
      change (Returned e = Returned text) in Hstr. congruence.
    - rewrite Hv' in Hv. injection Hv as ->.
      destruct Hwhy as [[err Herr]|(text' & Hstr' & Htest')]; congruence.
    - destruct Hacc as [Hnone|(e & He & Hvalid & _)]; [congruence|].
      rewrite He in Hv. injection Hv as <-.
      change (Returned e = Returned text) in Hstr. congruence. }
  split; [|split; [|split]].
  - intros userId Hparse Hnone. apply put_not_found; [congruence|].
    rewrite Hparse. apply list_find_None, Forall_forall.
    intros u Hu [= Hid]. apply (Hnone u Hu Hid).
  - intros i target v Hfind Hv Hshort.
    assert (Hinv : invalidName (body_name b) = true).
    { rewrite Hv. unfold invalidName. destruct v; try reflexivity.
      specialize (Hshort _ eq_refl). lia. }
    assert (Hdef : defined (body_name b) = true) by (rewrite Hv; reflexivity).
    pose proof (put_cases idParam b w) as Hcase.
    inversion Hcase as [Hparse|_ Hnone| | | | |];
      try reflexivity;
      try match goal with H : nameAccepted b |- _ =>
            rewrite (nameAccepted_checked b H Hdef) in Hinv; discriminate Hinv end.
    + apply list_find_idIs_parsed in Hfind as [Hsome _]. congruence.
    + congruence.
  - exact Hemail.
  - intros i target flag Hfind Hname [Hv|Hv].
    + apply (Hemail i target JNull "null" Hfind Hname Hv); reflexivity.
    + apply (Hemail i target (JBool flag) (if flag then "true" else "false")
               Hfind Hname Hv); [reflexivity|]. destruct flag; reflexivity.
Qed.

(** X18.  The checks of [POST /api/users] on values that are no strings
    (lines 134-154).  A name that is truthy and not a string is answered
    with the message about the name, whatever the e-mail is as long as
    it is truthy.  With an acceptable name, an e-mail that is truthy and
    whose string conversion does not match the pattern is answered with
    the message about the address, as [true] is: the answer is 400 and
    not 500, and the state does not change. *)
Theorem create_checks_other_types n w :
  (∀ v email, (∀ s, v ≠ JStr s) -> truthy (Some v) = true -> truthy email = true ->
     post_api_users (Payload (Some v) email) w = (w, Returned nameTooShort)) ∧
  (2 <= length (trim n) ->
   ∀ v text, truthy (Some v) = true ->
     ToString v = Returned text -> test emailRegex text = false ->
     post_api_users (Payload (Some (JStr n)) (Some v)) w = (w, Returned invalidEmail)) ∧
  (2 <= length (trim n) ->
   post_api_users (Payload (Some (JStr n)) (Some (JBool true))) w
   = (w, Returned invalidEmail)).
Proof.
  assert (Hemail : 2 <= length (trim n) ->
   ∀ v text, truthy (Some v) = true ->
     ToString v = Returned text -> test emailRegex text = false ->
     post_api_users (Payload (Some (JStr n)) (Some v)) w = (w, Returned invalidEmail)).
  { intros Hn v text Hv Hstr Htest.
    pose proof (post_cases (Payload (Some (JStr n)) (Some v)) w) as Hcase.
    inversion Hcase as [Hmiss|_ _ Hinv| |? e ? Hb _ Hvalid _
                        |_ _ _ _ Hwhy|text' _ _ _ _ Hstr' Htest' _|? e Hb _ Hvalid _];
      cbn in *; try reflexivity.
    - assert (truthy (Some (JStr n)) = true)
        by (destruct n; [vm_compute in Hn; congruence|reflexivity]).
      destruct Hmiss; congruence.
    - unfold invalidName in Hinv. lia.
    - injection Hb as _ ->. change (Returned e = Returned text) in Hstr. congruence.
    - destruct Hwhy as [[err Herr]|(text' & Hstr' & Htest' & _)]; congruence.
    - congruence.
    - injection Hb as _ ->. change (Returned e = Returned text) in Hstr. congruence. }
  split; [|split].
  - intros v email Hv Htruthy Hemail'.
    assert (Hinv : invalidName (Some v) = true).
    { unfold invalidName. destruct v; try reflexivity. destruct (Hv s). reflexivity. }
    pose proof (post_cases (Payload (Some v) email) w) as Hcase.
    inversion Hcase as [Hmiss| | |? ? ? Hb| | |? ? Hb]; cbn in *;
      try reflexivity; try congruence.
    destruct Hmiss; congruence.
  - exact Hemail.
  - intros Hn. apply (Hemail Hn (JBool true) "true"); reflexivity.
Qed.

(** ** Timestamps, once more *)

(** X19.  The timestamps of the stored users (lines 20-22, 168-169 and
    237) under a clock that never goes back: in a state the process can
    get to, [createdAt] is a reading of the clock that was made, so it is
    not after the next reading; [updatedAt], when a user has one, is a
    reading made no earlier than that of [createdAt] and is not after the
    next reading either. *)
Theorem timestamps_are_past_readings w u :
  (∀ i j, (i <= j)%nat -> clock i <= clock j) ->
  reachable w -> u ∈ users w ->
  createdAt u <= clock (reads w) ∧
  (∃ i, (i < reads w)%nat ∧ createdAt u = clock i) ∧
  (∀ t, updatedAt u = Some t ->
     createdAt u <= t ∧ t <= clock (reads w) ∧
     ∃ j, (j < reads w)%nat ∧ t = clock j).
Proof.
  intros Hmono Hw Hu. apply reachable_timed in Hw.
  rewrite Forall_forall in Hw. destruct (Hw u Hu) as (i & Hi & Hc & Hupd).
  split; [rewrite Hc; apply Hmono; lia|].
  split; [exists i; split; assumption|].
  intros t Ht. rewrite Ht in Hupd. destruct Hupd as (j & Hj & ->).
  rewrite Hc. split; [apply Hmono; lia|]. split; [apply Hmono; lia|].
  exists j. split; [lia|reflexivity].
Qed.

End Server.

Arguments JNull {number}.
Arguments JBool {number} b.
Arguments JNum {number} n.
Arguments JStr {number} s.
Arguments JArr {number} elements.
Arguments JObj {number} properties.
Arguments Payload {number} body_name body_email.
Arguments body_name {number} p.
Arguments body_email {number} p.
Arguments GET_users {number} q.
Arguments GET_user {number} idParam.
Arguments POST_users {number} b.
Arguments PUT_user {number} idParam b.
Arguments DELETE_user {number} idParam.
Arguments truthy {number} number_is_zero v.
Arguments ToString {number} number_to_string v.
Arguments ToString_opt {number} number_to_string v.
Arguments isValidEmail {number} number_to_string email w.
Arguments invalidName {number} name.
Arguments defined {number} v.
Arguments toLowerCase_ {number} v w.
Arguments trim_ {number} v w.
Arguments post_api_users {number} number_is_zero number_to_string clock b w.
Arguments put_api_users_id {number} number_to_string clock idParam b w.
Arguments post_api_users_try {number} number_is_zero number_to_string clock b w.
Arguments put_api_users_id_try {number} number_to_string clock idParam b w.
Arguments route {number} number_is_zero number_to_string clock r w.
Arguments app {number} number_is_zero number_to_string clock production r w.
Arguments reaches {number} number_is_zero number_to_string clock production w0 w.
Arguments reachable {number} number_is_zero number_to_string clock production w.
Arguments presentButFalsy {number} number_is_zero v.
Arguments withoutFalsy {number} number_is_zero b.
Arguments validationFailed {number} number_is_zero b.
Arguments nameAccepted {number} b.
Arguments emailAccepted {number} userId b us.
Arguments newName {number} b.
Arguments newEmail {number} b.
Arguments updatedUser {number} b t u.

(** * The claims on concrete requests

    The requests below are served in the environment [Sample], from the
    state [start] in which the module has just been loaded. *)

Module Examples.

Import Sample.

Abbreviation start := (initial clock).
Abbreviation post := (post_api_users number_is_zero number_to_string clock).
Abbreviation put := (put_api_users_id number_to_string clock).
Abbreviation serve := (app number_is_zero number_to_string clock false).
Abbreviation john := (User 1 "John Doe" "john@example.com" (clock 0) None).
Abbreviation jane := (User 2 "Jane Smith" "jane@example.com" (clock 1) None).
Abbreviation bob := (User 3 "Bob Johnson" "bob@example.com" (clock 2) None).

(** C1 fails as stated.  ["2abc"] and ["1.5"] are not base-10 integers,
    yet [GET /api/users/2abc] answers 200 with user 2, [DELETE
    /api/users/1.5] removes user 1, and [GET /api/users/9abc] answers
    404. *)
Lemma id_with_integer_prefix_accepted :
  isDecimalInteger "2abc" = false ∧ isDecimalInteger "1.5" = false ∧
  isDecimalInteger "9abc" = false ∧
  get_api_users_id "2abc" start = (start, Returned (Response 200 (UserObject jane))) ∧
  delete_api_users_id "1.5" start
  = (World [jane; bob] 4 3,
     Returned (Response 200 (MessageDeleted "User deleted successfully"
                               1 "John Doe" "john@example.com"))) ∧
  get_api_users_id "9abc" start = (start, Returned (Response 404 (Error "User not found"))) ∧
  (get_api_users_id "2abc" start).2 ≠ Returned invalidId ∧
  (delete_api_users_id "1.5" start).2 ≠ Returned invalidId ∧
  (put "2abc" (Payload (Some (JStr "Janet")) None) start).2 ≠ Returned invalidId.
Proof. repeat split; try reflexivity; discriminate. Qed.

(** [malformed_id_rejected] on the id ["invalid"]. *)
Lemma malformed_id_rejected_witness :
  parseInt "invalid" = None ∧
  get_api_users_id "invalid" start = (start, Returned invalidId) ∧
  put "invalid" (Payload (Some (JStr "Test")) None) start = (start, Returned invalidId) ∧
  delete_api_users_id "invalid" start = (start, Returned invalidId).
Proof.
  destruct (malformed_id_rejected number number_to_string clock "invalid" start)
    as [H _].
  assert (Hnan : parseInt "invalid" = None) by reflexivity.
  destruct (H Hnan) as (Hget & Hput & Hdelete).
  split; [exact Hnan|]. split; [exact Hget|]. split; [apply Hput|exact Hdelete].
Defined.

(** C2 fails as stated.  A negative [page] or [limit] is not replaced by
    the default: with [page=-1] and [limit=-5] the effective page is -1,
    which the response reports, and the effective limit is -5. *)
Lemma negative_page_and_limit_used :
  let q := Query None None (Some "-1") (Some "-5") in
  let q' := Query None None (Some "-1") (Some "2") in
  "-1" = pretty (-1) ∧ "-5" = pretty (-5) ∧
  pageOf q = -1 ∧ pageOf q ≠ 1 ∧ limitOf q = -5 ∧ limitOf q ≠ 10 ∧
  get_api_users q start
  = (start, Returned (Response 200 (UsersPage [] (Pagination (-1) 0 3 false true)))) ∧
  get_api_users q' start
  = (start, Returned (Response 200 (UsersPage [john] (Pagination (-1) 2 3 true false)))).
Proof. repeat split; try reflexivity; discriminate. Qed.

(** [page_and_limit_defaults] on [page=2&limit=abc] and on [limit=0]. *)
Lemma page_and_limit_defaults_witness :
  pageOf (Query None None (Some "2") (Some "abc")) = 2 ∧
  limitOf (Query None None (Some "2") (Some "abc")) = 10 ∧
  pageOf (Query None None None (Some "0")) = 1 ∧
  limitOf (Query None None None (Some "0")) = 10.
Proof.
  destruct (page_and_limit_defaults (Query None None (Some "2") (Some "abc")))
    as (_ & _ & _ & Hpage & _ & Hlimit & _).
  destruct (page_and_limit_defaults (Query None None None (Some "0")))
    as (_ & Habsent & _ & _ & _ & _ & Hzero).
  assert (H2 : exactInteger 2) by (vm_compute; discriminate).
  assert (H0 : exactInteger 0) by (vm_compute; discriminate).
  split; [exact (Hpage 2 H2 eq_refl)|].
  split; [apply (Hlimit "abc"); reflexivity|].
  split; [apply Habsent; reflexivity|exact (Hzero 0 H0 eq_refl)].
Defined.

(** C3 fails as stated.  With [page=1] and [limit=-1] the slice is
    [slice(0, -1)], all users but the last: two users, more than the
    effective limit -1 and not the empty range from 0 to -1.  With the
    filter [name=zzz] nothing is left, and [hasNext] is still true. *)
Lemma negative_limit_slice :
  let q := Query None None (Some "1") (Some "-1") in
  let q' := Query (Some "zzz") None (Some "1") (Some "-1") in
  limitOf q = -1 ∧
  get_api_users q start
  = (start, Returned (Response 200 (UsersPage [john; jane] (Pagination 1 (-3) 3 true false)))) ∧
  ¬ Z.of_nat (List.length [john; jane]) <= limitOf q ∧
  filteredOf q' (users start) = [] ∧
  get_api_users q' start
  = (start, Returned (Response 200 (UsersPage [] (Pagination 1 0 0 true false)))).
Proof. repeat split; try reflexivity. vm_compute. intros H. apply H. reflexivity. Qed.

(** [get_users_page] on [page=1&limit=2], the scenario of the
    specification: the first two users, and a next page. *)
Lemma get_users_page_witness :
  ∃ info,
    get_api_users (Query None None (Some "1") (Some "2")) start
    = (start, Returned (Response 200 (UsersPage [john; jane] info))) ∧
    hasNext info = true.
Proof.
  destruct (get_users_page (Query None None (Some "1") (Some "2")) start)
    as (paginated & info & Hget & _ & Hpage & _ & _ & Hnext).
  - vm_compute. discriminate.
  - vm_compute. discriminate.
  - vm_compute. discriminate.
  - exists info. split.
    + rewrite Hget, Hpage. reflexivity.
    + apply Hnext. exists 2%nat, bob. split; [reflexivity|vm_compute; discriminate].
Defined.


(** C4 fails as stated on the timestamps.  The record is given two
    clock reads, one for [createdAt] and the next one for [updatedAt]:
    when the clock advances in between they differ. *)
Lemma created_timestamps_are_two_reads :
  post (Payload (Some (JStr "Test User")) (Some (JStr "Test@Example.com"))) start
  = (World [john; jane; bob;
            User 4 "Test User" "test@example.com" 1705314600003 (Some 1705314600004)]
           5 5,
     Returned (Response 201 (MessageUser "User created successfully"
       (User 4 "Test User" "test@example.com" 1705314600003 (Some 1705314600004))))) ∧
  Some 1705314600003 ≠ Some 1705314600004.
Proof. split; [reflexivity|discriminate]. Qed.

(** [post_creates_user] after user 3 has been deleted: the new user
    gets the id 4, not the id 3 that has become free. *)
Lemma post_creates_user_witness :
  let w := (serve (DELETE_user "3") start).1 in
  ∃ w',
    post (Payload (Some (JStr " Test User ")) (Some (JStr "Test@Example.com"))) w
    = (w', Returned (Response 201 (MessageUser "User created successfully"
         (User 4 "Test User" "test@example.com" 1705314600004 (Some 1705314600005))))) ∧
    users w' = [john; jane;
                User 4 "Test User" "test@example.com" 1705314600004 (Some 1705314600005)].
Proof.
  intros w.
  destruct (post_creates_user number number_is_zero number_to_string clock false
              start w " Test User " "Test@Example.com")
    as (new & w' & Hpost & _ & _ & _ & _ & _ & _ & _ & Husers).
  - apply reaches_here.
  - apply (reaches_app number number_is_zero number_to_string clock false
             start (DELETE_user "3") start), reaches_here.
  - vm_compute. discriminate.
  - reflexivity.
  - intros u Hu. apply list_elem_of_In in Hu.
    destruct Hu as [<-|[<-|[]]]; vm_compute; discriminate.
  - exists w'. rewrite Hpost. vm_compute in Hpost. injection Hpost as <- <-.
    split; reflexivity.
Defined.

(** [emails_stay_unique] in the initial state: John's address in
    capitals cannot be registered again, and Jane cannot take Bob's. *)
Lemma emails_stay_unique_witness :
  post (Payload (Some (JStr "Johnny")) (Some (JStr "JOHN@example.com"))) start
  = (start, Returned duplicateOnCreate) ∧
  put "2" (Payload None (Some (JStr "Bob@Example.com"))) start
  = (start, Returned duplicateOnUpdate).
Proof.
  destruct (emails_stay_unique number number_is_zero number_to_string clock false
              start (reaches_here _ _ _ _ _ _))
    as (_ & Hpost & Hput).
  split.
  - destruct (Hpost (Payload (Some (JStr "Johnny")) (Some (JStr "JOHN@example.com")))
                "JOHN@example.com" john eq_refl) as (_ & _ & H409).
    + apply list_elem_of_In. left. reflexivity.
    + reflexivity.
    + apply (H409 "Johnny" eq_refl). vm_compute. discriminate.
  - apply (Hput "2" (Payload None (Some (JStr "Bob@Example.com")))
             "Bob@Example.com" 1%nat jane bob).
    + reflexivity.
    + left. reflexivity.
    + reflexivity.
    + apply list_elem_of_In. right. right. left. reflexivity.
    + discriminate.
    + reflexivity.
Defined.

(** [put_changes_only_given_fields] on the scenario of the
    specification, [PUT /api/users/2 {name: "Only Name Updated"}]. *)
Lemma put_changes_only_given_fields_witness :
  ∃ new,
    (put "2" (Payload (Some (JStr "Only Name Updated")) None) start).1
    = World [john; new; bob] 4 4 ∧
    name new = "Only Name Updated" ∧ email new = "jane@example.com" ∧
    id new = 2 ∧ createdAt new = clock 1 ∧ updatedAt new = Some (clock 3).
Proof.
  destruct (put_changes_only_given_fields number number_to_string clock
              "2" (Payload (Some (JStr "Only Name Updated")) None) start
              _ _ eq_refl eq_refl)
    as (i & old & new & Hold & Hid & Hnew & Hresp & _).
  injection Hresp as <-. eexists. split; [reflexivity|].
  repeat split; reflexivity.
Defined.

(** C8 fails as stated.  [" A "] has raw length 3 and trimmed length 1:
    create and update reject it with 400 and store nothing. *)
Lemma padded_short_name_rejected :
  JsString.length " A " = 3 ∧ JsString.length (trim " A ") = 1 ∧
  post (Payload (Some (JStr " A ")) (Some (JStr "a@example.com"))) start
  = (start, Returned nameTooShort) ∧
  put "1" (Payload (Some (JStr " A ")) None) start = (start, Returned nameTooShort).
Proof. repeat split; reflexivity. Qed.

(** [name_length_checked_after_trim] on ["  B "], which is rejected, and
    on [" Al "], which is stored as ["Al"]. *)
Lemma name_length_checked_after_trim_witness :
  post (Payload (Some (JStr "  B ")) (Some (JStr "b@example.com"))) start
  = (start, Returned nameTooShort) ∧
  put "3" (Payload (Some (JStr "  B ")) None) start = (start, Returned nameTooShort) ∧
  ∃ u, (post (Payload (Some (JStr " Al ")) (Some (JStr "al@example.com"))) start).2
       = Returned (Response 201 (MessageUser "User created successfully" u)) ∧
       name u = "Al".
Proof.
  destruct (name_length_checked_after_trim number number_is_zero number_to_string
              clock "  B ") as [Hshort _].
  destruct Hshort as [Hpost Hput]; [vm_compute; reflexivity|].
  split; [apply Hpost; [discriminate|reflexivity]|].
  split; [apply (Hput "3" None start 2%nat bob); reflexivity|].
  destruct (name_length_checked_after_trim number number_is_zero number_to_string
              clock " Al ") as (_ & Hstored & _).
  eexists. split; [reflexivity|].
  eapply (Hstored (Some (JStr "al@example.com")) start). reflexivity.
Defined.

(** [put_internal_failure_escapes] on the failing request, and on an
    update that succeeds: its answer is not a 500. *)
Lemma put_internal_failure_escapes_witness :
  put "1" (Payload None (Some (JArr [JStr "a@b.c"]))) start
  = (start, Thrown (TypeError "res.status.status is not a function")) ∧
  (put "1" (Payload (Some (JStr "John")) None) start).2
  = Returned (Response 200 (MessageUser "User updated successfully"
      (User 1 "John" "john@example.com" (clock 0) (Some (clock 3))))) ∧
  (200 : Z) ≠ 500.
Proof.
  destruct (put_internal_failure_escapes number number_is_zero number_to_string
              clock false) as (Hescapes & Hnever & _).
  split; [|split; [reflexivity|] ].
  - apply (Hescapes "1" (Payload None (Some (JArr [JStr "a@b.c"]))) start start
             (TypeError "toLowerCase is not a function")).
    reflexivity.
  - apply (Hnever "1" (Payload (Some (JStr "John")) None) start
             (Response 200 (MessageUser "User updated successfully"
                (User 1 "John" "john@example.com" (clock 0) (Some (clock 3)))))).
    reflexivity.
Defined.

(** [post_falsy_field_is_missing] on the body [{name: null, email: 0}]. *)
Lemma post_falsy_field_is_missing_witness :
  post (Payload (Some JNull) (Some (JNum 0))) start
  = (start, Returned (Response 400 (ErrorDetails "Validation failed"
       (Some "Name is required") (Some "Email is required")))) ∧
  post (Payload (Some JNull) (Some (JNum 0))) start = post (Payload None None) start.
Proof.
  destruct (post_falsy_field_is_missing number number_is_zero number_to_string clock
              (Payload (Some JNull) (Some (JNum 0))) start)
    as (Hresp & Habsent & _).
  - left. right. left. reflexivity.
  - split; [exact Hresp|exact Habsent].
Defined.

End Examples.

(** * The further properties on concrete requests *)

Module MoreExamples.

Import Sample.
Import Examples.

Abbreviation stats := (get_api_stats clock).
Abbreviation ann := (User 4 "Ann Lee" "ann@example.com" (clock 3) (Some (clock 4))).

(** [isValidEmail_shape] on [john@example.com], whose parts are [john],
    [example] and [com]. *)
Lemma isValidEmail_shape_witness :
  isValidEmail number_to_string (Some (JStr "john@example.com")) start
  = (start, Returned true).
Proof.
  destruct (isValidEmail_shape number number_to_string "john@example.com" start)
    as [Hvalid [_ Hshape]].
  rewrite Hvalid, Hshape; [reflexivity|].
  exists "john", "example", "com". repeat split.
Defined.


(** [pagination_metadata] on the second page of two users: the three
    users make two pages, of which this is the last. *)
Lemma pagination_metadata_witness :
  ∃ info,
    get_api_users (Query None None (Some "2") (Some "2")) start
    = (start, Returned (Response 200 (UsersPage [bob] info))) ∧
    totalPages info = 2 ∧ hasNext info = false ∧
    (hasPrev info = true <-> 1 < currentPage info).
Proof.
  destruct (pagination_metadata (Query None None (Some "2") (Some "2")) start)
    as (paginated & info & Hget & _ & _ & _ & _ & _ & Hprev & _).
  - vm_compute. discriminate.
  - vm_compute. discriminate.
  - vm_compute. discriminate.
  - exists info. pose proof Hget as Hrun. vm_compute in Hrun.
    injection Hrun as Hpaginated Hinfo.
    split; [rewrite Hget, <- Hpaginated; reflexivity|].
    split; [rewrite <- Hinfo; reflexivity|].
    split; [rewrite <- Hinfo; reflexivity|exact Hprev].
Defined.

(** [pages_cover_the_list] with two users a page. *)
Lemma pages_cover_the_list_witness :
  listed (Query None None (Some "1") (Some "2")) start
  ++ listed (Query None None (Some "2") (Some "2")) start
  = [john; jane; bob].
Proof.
  pose proof (pages_cover_the_list (Query None None None (Some "2")) start) as Hpages.
  cbv zeta in Hpages.
  assert (H1 : 1 <= limitOf (Query None None None (Some "2")))
    by (vm_compute; discriminate).
  assert (H2 : exactInteger
                 (ceilDiv (Z.of_nat (List.length
                    (filteredOf (Query None None None (Some "2")) (users start))))
                    (limitOf (Query None None None (Some "2")))
                  * limitOf (Query None None None (Some "2"))))
    by (vm_compute; discriminate).
  specialize (Hpages H1 H2). vm_compute in Hpages. vm_compute. exact Hpages.
Defined.

(** [create_outcomes] on a body without e-mail. *)
Lemma create_outcomes_witness :
  ∃ resp,
    post (Payload (Some (JStr "Ann Lee")) None) start = (start, Returned resp) ∧
    status resp ∈ [201; 400; 409; 500].
Proof.
  destruct (create_outcomes number number_is_zero number_to_string clock
              (Payload (Some (JStr "Ann Lee")) None) start)
    as (w' & resp & Hpost & Hstatus & _).
  exists resp. split; [|exact Hstatus].
  rewrite Hpost. vm_compute in Hpost. injection Hpost as <- _. reflexivity.
Defined.

(** [update_outcomes] on an update whose e-mail is a string. *)
Lemma update_outcomes_witness :
  ∃ w' resp,
    put "2" (Payload None (Some (JStr "bob@example.com"))) start = (w', Returned resp).
Proof.
  destruct (update_outcomes number number_to_string clock "2"
              (Payload None (Some (JStr "bob@example.com"))) start)
    as (_ & _ & Hanswered).
  apply Hanswered. right. exists "bob@example.com". reflexivity.
Defined.

(** [failed_create_consumes_id] on the e-mail [["a@b.c"]]: with the three
    users in the store nothing changes, and once they have been deleted
    the failed create moves the id counter from 4 to 5. *)
Lemma failed_create_consumes_id_witness :
  let b := Payload (Some (JStr "Bob")) (Some (JArr [JStr "a@b.c"])) in
  let emptied :=
    (serve (DELETE_user "3")
       (serve (DELETE_user "2") (serve (DELETE_user "1") start).1).1).1 in
  post b start = (start, Returned internalError) ∧
  users emptied = [] ∧ nextId emptied = 4 ∧
  post b emptied = (World [] 5 (reads emptied), Returned internalError).
Proof.
  intros b emptied.
  assert (Hn : 2 <= length (trim "Bob")) by (vm_compute; discriminate).
  assert (Hv : truthy number_is_zero (Some (JArr [JStr "a@b.c"])) = true) by reflexivity.
  assert (Hno : ∀ e : string, JArr [JStr "a@b.c"] ≠ (JStr e : json number))
    by discriminate.
  assert (Hstr : ToString number_to_string (JArr [JStr "a@b.c"]) = Returned "a@b.c")
    by reflexivity.
  assert (Htest : test emailRegex "a@b.c" = true) by reflexivity.
  split; [|split; [reflexivity|split; [reflexivity|]]].
  - apply (failed_create_consumes_id number number_is_zero number_to_string clock
             "Bob" (JArr [JStr "a@b.c"]) "a@b.c" start Hn Hv Hno Hstr Htest).
  - apply (failed_create_consumes_id number number_is_zero number_to_string clock
             "Bob" (JArr [JStr "a@b.c"]) "a@b.c" emptied Hn Hv Hno Hstr Htest).
Defined.

(** [errors_change_no_user] on the create of an address that is taken:
    the answer is 409 and the users are as before. *)
Lemma errors_change_no_user_witness :
  let r := POST_users (Payload (Some (JStr "Johnny")) (Some (JStr "JOHN@example.com"))) in
  status (serve r start).2 = 409 ∧ users (serve r start).1 = [john; jane; bob].
Proof.
  intros r.
  destruct (errors_change_no_user number number_is_zero number_to_string clock false
              r start) as (_ & Hsame & _).
  split; [reflexivity|]. apply Hsame. vm_compute. discriminate.
Defined.


(** [listed_users_are_served] on Jane, found by the filter [name=JANE]
    and served under the id 2. *)
Lemma listed_users_are_served_witness :
  listed (Query (Some "JANE") None None None) start = [jane] ∧
  get_api_users_id "2" start = (start, Returned (Response 200 (UserObject jane))).
Proof.
  destruct (listed_users_are_served number number_is_zero number_to_string clock false
              start) as [Hserved _].
  - apply reaches_here.
  - split; [reflexivity|].
    apply (Hserved (Query (Some "JANE") None None None) jane). left.
Defined.

(** [created_user_is_served] on the create of Ann Lee, who gets the id
    4. *)
Lemma created_user_is_served_witness :
  ∃ w',
    post (Payload (Some (JStr "Ann Lee")) (Some (JStr "Ann@Example.com"))) start
    = (w', Returned (Response 201 (MessageUser "User created successfully" ann))) ∧
    get_api_users_id "4" w' = (w', Returned (Response 200 (UserObject ann))) ∧
    last (users w') = Some ann.
Proof.
  exists (World [john; jane; bob; ann] 5 5). split; [reflexivity|].
  destruct (created_user_is_served number number_is_zero number_to_string clock false
              (Payload (Some (JStr "Ann Lee")) (Some (JStr "Ann@Example.com"))) start
              (World [john; jane; bob; ann] 5 5) "User created successfully" ann)
    as (Hget & Hlast & _).
  - apply reaches_here.
  - reflexivity.
  - split; [exact Hget|exact Hlast].
Defined.

(** [updated_user_is_served] on the renaming of Jane. *)
Lemma updated_user_is_served_witness :
  let janet := User 2 "Janet" "jane@example.com" (clock 1) (Some (clock 3)) in
  let w' := World [john; janet; bob] 4 4 in
  put "2" (Payload (Some (JStr "Janet")) None) start
  = (w', Returned (Response 200 (MessageUser "User updated successfully" janet))) ∧
  get_api_users_id "2" w' = (w', Returned (Response 200 (UserObject janet))) ∧
  (get_api_users_id "3" w').2 = (get_api_users_id "3" start).2.
Proof.
  intros janet w'.
  assert (Hput : put "2" (Payload (Some (JStr "Janet")) None) start
                 = (w', Returned (Response 200
                      (MessageUser "User updated successfully" janet))))
    by reflexivity.
  destruct (updated_user_is_served number number_to_string clock "2"
              (Payload (Some (JStr "Janet")) None) start w'
              "User updated successfully" janet Hput) as [Hget Hothers].
  split; [exact Hput|]. split; [exact Hget|].
  apply Hothers. vm_compute. discriminate.
Defined.

(** [deleted_user_is_gone] on the deletion of Jane. *)
Lemma deleted_user_is_gone_witness :
  let w' := World [john; bob] 4 3 in
  delete_api_users_id "2" start
  = (w', Returned (Response 200 (MessageDeleted "User deleted successfully"
                                   2 "Jane Smith" "jane@example.com"))) ∧
  get_api_users_id "2" w' = (w', Returned notFound) ∧
  put "2" (Payload (Some (JStr "Janet")) None) w' = (w', Returned notFound) ∧
  delete_api_users_id "2" w' = (w', Returned notFound).
Proof.
  intros w'.
  assert (Hdelete : delete_api_users_id "2" start
                    = (w', Returned (Response 200
                         (MessageDeleted "User deleted successfully"
                            2 "Jane Smith" "jane@example.com"))))
    by reflexivity.
  destruct (deleted_user_is_gone number number_is_zero number_to_string clock false
              "2" start w' _ (reaches_here _ _ _ _ _ _) Hdelete eq_refl)
    as (i & u & _ & _ & _ & _ & _ & _ & _ & _ & Hget & Hput & Hagain & _).
  split; [exact Hdelete|]. split; [exact Hget|]. split; [apply Hput|exact Hagain].
Defined.

(** [stored_users_are_well_formed] after the create of [" Ann Lee "] with
    the address [Ann@Example.com]: what is stored is trimmed and in lower
    case. *)
Lemma stored_users_are_well_formed_witness :
  let w := (serve (POST_users (Payload (Some (JStr " Ann Lee "))
                                       (Some (JStr "Ann@Example.com")))) start).1 in
  users w = [john; jane; bob;
             User 4 "Ann Lee" "ann@example.com" (clock 4) (Some (clock 5))] ∧
  ∀ u, u ∈ users w ->
    1 <= id u ∧ id u < nextId w ∧ trim (name u) = name u ∧ 2 <= length (name u) ∧
    toLowerCase (email u) = email u ∧ test emailRegex (email u) = true.
Proof.
  intros w. split; [reflexivity|].
  apply (stored_users_are_well_formed number number_is_zero number_to_string clock false w).
  apply reaches_app, reaches_here.
Defined.

(** [resaving_a_user] on Jane. *)
Lemma resaving_a_user_witness :
  ∃ i, users start !! i = Some jane ∧
    put "2" (Payload (Some (JStr "Jane Smith")) (Some (JStr "jane@example.com"))) start
    = (World (<[i := setUpdatedAt (clock 3) jane]> (users start)) 4 4,
       Returned (Response 200 (MessageUser "User updated successfully"
                                 (setUpdatedAt (clock 3) jane)))).
Proof.
  apply (resaving_a_user number number_is_zero number_to_string clock false start jane).
  - apply reaches_here.
  - right. left.
Defined.

(** [statistics_follow_the_store] around the create of Ann Lee: three
    users before, four after. *)
Lemma statistics_follow_the_store_witness :
  let r := POST_users (Payload (Some (JStr "Ann Lee")) (Some (JStr "ann@example.com"))) in
  ∃ before after,
    (stats 12 start).2 = Returned before ∧ stats_totalUsers before = 3 ∧
    (stats 13 (serve r start).1).2 = Returned after ∧
    stats_totalUsers after = stats_totalUsers before + 1.
Proof.
  intros r.
  destruct (statistics_follow_the_store number number_is_zero number_to_string clock false
              12 start) as (before & Hstats & Htotal & _ & _ & _ & Hchange).
  exists before. eexists. split; [rewrite Hstats; reflexivity|]. split; [exact Htotal|].
  split; [reflexivity|]. apply (Hchange r 13). reflexivity.
Defined.

(** [update_checks_in_order] on an id that no user has, with a body that
    would be refused for its name, and on the e-mail [null]. *)
Lemma update_checks_in_order_witness :
  put "9" (Payload (Some (JStr "x")) (Some (JStr "nowhere"))) start
  = (start, Returned notFound) ∧
  put "2" (Payload (Some JNull) (Some (JStr "nowhere"))) start
  = (start, Returned nameTooShort) ∧
  put "2" (Payload None (Some JNull)) start = (start, Returned invalidEmail).
Proof.
  split; [|split].
  - destruct (update_checks_in_order number number_to_string clock "9"
                (Payload (Some (JStr "x")) (Some (JStr "nowhere"))) start)
      as (Hunknown & _).
    apply (Hunknown 9); [reflexivity|].
    intros u Hu. apply list_elem_of_In in Hu.
    destruct Hu as [<-|[<-|[<-|[]]]]; discriminate.
  - destruct (update_checks_in_order number number_to_string clock "2"
                (Payload (Some JNull) (Some (JStr "nowhere"))) start)
      as (_ & Hname & _).
    apply (Hname 1%nat jane JNull); [reflexivity|reflexivity|discriminate].
  - destruct (update_checks_in_order number number_to_string clock "2"
                (Payload None (Some JNull)) start)
      as (_ & _ & _ & Hnull).
    apply (Hnull 1%nat jane true); [reflexivity|left; reflexivity|left; reflexivity].
Defined.

(** [create_checks_other_types] on a name that is a number and on an
    e-mail that is [true]. *)
Lemma create_checks_other_types_witness :
  post (Payload (Some (JNum 7)) (Some (JStr "seven@example.com"))) start
  = (start, Returned nameTooShort) ∧
  post (Payload (Some (JStr "Ann Lee")) (Some (JBool true))) start
  = (start, Returned invalidEmail).
Proof.
  destruct (create_checks_other_types number number_is_zero number_to_string clock
              "Ann Lee" start) as (Hname & _ & Htrue).
  split.
  - apply Hname; [discriminate|reflexivity|reflexivity].
  - apply Htrue. vm_compute. discriminate.
Defined.

(** [timestamps_are_past_readings] on Jane after she was renamed: created
    at the reading 1 and updated at the reading 4. *)
Lemma timestamps_are_past_readings_witness :
  let w := (serve (PUT_user "2" (Payload (Some (JStr "Janet")) None)) start).1 in
  let janet := User 2 "Janet" "jane@example.com" (clock 1) (Some (clock 4)) in
  users w = [john; janet; bob] ∧ createdAt janet <= clock 4.
Proof.
  intros w janet. split; [reflexivity|].
  assert (Hmono : ∀ i j, (i <= j)%nat -> clock i <= clock j)
    by (intros i j Hij; unfold clock; lia).
  destruct (timestamps_are_past_readings number number_is_zero number_to_string clock
              false w janet Hmono) as (_ & _ & Hupdated).
  - apply reaches_app, reaches_here.
  - right. left.
  - apply (Hupdated (clock 4) eq_refl).
Defined.

End MoreExamples.
